(** * simplestclaw: the hosted sidecar and the desktop settings flow

    A shallow embedding of the three pieces of the repository that carry
    behaviour of their own:

    - the sidecar (spawn the gateway, watch its stdout and its exit,
      answer health checks),
    - the desktop store (a zustand store of five fields and five setters),
    - the desktop [Settings] and [Loading] components (the save handler,
      the install handler and what the two components render).

    JavaScript strings are sequences of UTF-16 code units, numbers that are
    integers by construction are in [Z] or [N], the download progress is a
    rational, objects used as maps are [gmap]s, the event loop is a queue of
    pending timers with a logical clock in milliseconds.

    Left out: the sidecar's two signal handlers and its [listen] call, and
    the polling effect of [Settings] beyond the value it stores. *)

From Stdlib Require Import ZArith NArith QArith Qround Ascii String List Lia Lqa.
From Stdlib Require Import DecimalPos.
From stdpp Require Import base decidable option list gmap.

Local Open Scope N_scope.

(** ** JavaScript strings and the built-ins the program calls *)

Module JS.

Abbreviation jsstring := (list N).

(** A source literal, one code unit per character (the program's literals
    are ASCII). *)
Fixpoint lit (s : string) : jsstring :=
  match s with
  | EmptyString => []
  | String a s' => N_of_ascii a :: lit s'
  end.

(** ToBoolean on a string, and on a string that may be null/undefined. *)
Definition truthy (s : jsstring) : bool :=
  match s with [] => false | _ :: _ => true end.

Definition truthy_opt (o : option jsstring) : bool :=
  match o with None => false | Some s => truthy s end.

(** WhiteSpace and LineTerminator code points of ECMAScript, the ones
    [String.prototype.trim] strips. *)
Definition isWhiteSpace (c : N) : bool :=
  (9 <=? c) && (c <=? 13)
  || (c =? 32) || (c =? 160) || (c =? 5760)
  || (8192 <=? c) && (c <=? 8202)
  || (c =? 8232) || (c =? 8233) || (c =? 8239) || (c =? 8287)
  || (c =? 12288) || (c =? 65279).

Fixpoint trimStart (s : jsstring) : jsstring :=
  match s with
  | c :: s' => if isWhiteSpace c then trimStart s' else s
  | [] => []
  end.

Definition trimEnd (s : jsstring) : jsstring := rev (trimStart (rev s)).

Definition trim (s : jsstring) : jsstring := trimEnd (trimStart s).

Fixpoint startsWith (s pat : jsstring) {struct pat} : bool :=
  match pat, s with
  | [], _ => true
  | p :: pat', c :: s' => (c =? p) && startsWith s' pat'
  | _ :: _, [] => false
  end.

(** [s.includes(pat)]: [pat] occurs in [s] at some position. *)
Fixpoint includes (s pat : jsstring) : bool :=
  startsWith s pat ||
  match s with
  | [] => false
  | _ :: s' => includes s' pat
  end.

(** Number::toString on an integer below 10^21 in absolute value: the
    decimal digits, with a minus sign when negative. *)
Fixpoint digits (d : Decimal.uint) : jsstring :=
  match d with
  | Decimal.Nil => []
  | Decimal.D0 d' => 48 :: digits d'
  | Decimal.D1 d' => 49 :: digits d'
  | Decimal.D2 d' => 50 :: digits d'
  | Decimal.D3 d' => 51 :: digits d'
  | Decimal.D4 d' => 52 :: digits d'
  | Decimal.D5 d' => 53 :: digits d'
  | Decimal.D6 d' => 54 :: digits d'
  | Decimal.D7 d' => 55 :: digits d'
  | Decimal.D8 d' => 56 :: digits d'
  | Decimal.D9 d' => 57 :: digits d'
  end.

Definition String_of_int (z : Z) : jsstring :=
  match z with
  | Z0 => [48]
  | Zpos p => digits (Pos.to_uint p)
  | Zneg p => 45 :: digits (Pos.to_uint p)
  end.

(** The values the sidecar serialises. *)
#[warnings="-register-all"]
Inductive json :=
| JString (s : jsstring)
| JNumber (z : Z)
| JObject (members : list (jsstring * json)).

Definition hexDigit (n : N) : N :=
  if n <? 10 then 48 + n else 87 + n.

(** QuoteJSONString, one code unit at a time. *)
Definition quoteUnit (c : N) : jsstring :=
  if c =? 34 then [92; 34]
  else if c =? 92 then [92; 92]
  else if c =? 8 then [92; 98]
  else if c =? 12 then [92; 102]
  else if c =? 10 then [92; 110]
  else if c =? 13 then [92; 114]
  else if c =? 9 then [92; 116]
  else if c <? 32 then [92; 117; 48; 48; hexDigit (c / 16); hexDigit (c mod 16)]
  else [c].

Definition quote (s : jsstring) : jsstring :=
  34 :: concat (map quoteUnit s) ++ [34].

Fixpoint JSON_stringify (v : json) : jsstring :=
  match v with
  | JString s => quote s
  | JNumber z => String_of_int z
  | JObject members =>
      let fix go (first : bool) (ms : list (jsstring * json)) : jsstring :=
        match ms with
        | [] => []
        | (k, x) :: ms' =>
            (if first then [] else [44])
              ++ quote k ++ [58] ++ JSON_stringify x ++ go false ms'
        end in
      [123] ++ go true members ++ [125]
  end.

(** A string between double quotes, for writing JSON text down. *)
Definition quoted (s : string) : jsstring := 34 :: lit s ++ [34].

End JS.

Import JS.

(** ** The sidecar (src/unnamed/part_000) *)

Module Sidecar.

Definition OPENCLAW_PORT : Z := 18789.

(** The two functions the program hands to [setTimeout]. *)
Inductive callback :=
| CbStartOpenClaw   (* setTimeout(startOpenClaw, 5000) *)
| CbMarkHealthy.    (* setTimeout(() => { openclawHealthy = true; }, 3000) *)

#[global] Instance callback_eq_dec : EqDecision callback.
Proof. solve_decision. Defined.

Record timer := Timer { due : N; cb : callback }.

#[global] Instance timer_eq_dec : EqDecision timer.
Proof. solve_decision. Defined.

(** What [spawn] was called with. *)
Record child := Child {
  command : jsstring;
  args : list jsstring;
  env : gmap jsstring jsstring
}.

Inductive stream := Stdout | Stderr.

(** The module-level variables, the environment, and the parts of the Node
    event loop the program relies on: a clock in milliseconds and the timers
    that are pending, in the order they were set. [console] holds the lines
    written so far and [spawns] the clock value at each call of [spawn],
    newest first. *)
Record state := State {
  openclawHealthy : bool;
  openclawProcess : option child;
  process_env : gmap jsstring jsstring;
  now : N;
  timers : list timer;
  console : list (stream * jsstring);
  spawns : list N
}.

Definition set_openclawHealthy (b : bool) (s : state) : state :=
  State b (openclawProcess s) (process_env s) (now s) (timers s)
        (console s) (spawns s).

Definition set_timers (q : list timer) (s : state) : state :=
  State (openclawHealthy s) (openclawProcess s) (process_env s) (now s) q
        (console s) (spawns s).

Definition set_now (t : N) (s : state) : state :=
  State (openclawHealthy s) (openclawProcess s) (process_env s) t (timers s)
        (console s) (spawns s).

Definition console_write (o : stream) (line : jsstring) (s : state) : state :=
  State (openclawHealthy s) (openclawProcess s) (process_env s) (now s)
        (timers s) (console s ++ [(o, line)]) (spawns s).

Definition console_log := console_write Stdout.
Definition console_error := console_write Stderr.

(** [setTimeout(f, delay)]: [f] becomes due [delay] milliseconds from now. *)
Definition setTimeout (f : callback) (delay : N) (s : state) : state :=
  set_timers (timers s ++ [Timer (now s + delay) f]) s.

(** [{ ...process.env, k: process.env.k }] leaves [k] as it is; an explicit
    string replaces it. *)
Definition pass_through (k : jsstring) (parent e : gmap jsstring jsstring) :=
  match parent !! k with
  | Some v => <[k := v]> e
  | None => delete k e
  end.

Definition child_env (parent : gmap jsstring jsstring) : gmap jsstring jsstring :=
  pass_through (lit "OPENROUTER_API_KEY") parent
    (pass_through (lit "GOOGLE_API_KEY") parent
      (pass_through (lit "OPENAI_API_KEY") parent
        (pass_through (lit "ANTHROPIC_API_KEY") parent
          (<[lit "NODE_OPTIONS" := lit "--max-old-space-size=2048"]> parent)))).

Definition spawn (cmd : jsstring) (a : list jsstring)
    (e : gmap jsstring jsstring) (s : state) : state :=
  State (openclawHealthy s) (Some (Child cmd a e)) (process_env s) (now s)
        (timers s) (console s) (now s :: spawns s).

(** [startOpenClaw]. The three listeners it registers on the child are
    [on_stdout_data], [on_stderr_data] and [on_close] below. *)
Definition startOpenClaw (s : state) : state :=
  let s := console_log (lit "Starting OpenClaw gateway...") s in
  let args :=
    [lit "openclaw"; lit "gateway";
     lit "--port"; String_of_int OPENCLAW_PORT;
     lit "--bind"; lit "lan";
     lit "--allow-unconfigured"] in
  let args :=
    match process_env s !! lit "OPENCLAW_GATEWAY_TOKEN" with
    | Some tok => if truthy tok then args ++ [lit "--token"; tok] else args
    | None => args
    end in
  let s := spawn (lit "npx") args (child_env (process_env s)) s in
  setTimeout CbMarkHealthy 3000 s.

(** [openclawProcess.stdout.on('data', ...)] *)
Definition on_stdout_data (data : jsstring) (s : state) : state :=
  let s := console_log (lit "[openclaw] " ++ trim data) s in
  if includes data (lit "listening") || includes data (lit "started")
  then set_openclawHealthy true s
  else s.

(** [openclawProcess.stderr.on('data', ...)] *)
Definition on_stderr_data (data : jsstring) (s : state) : state :=
  console_error (lit "[openclaw] " ++ trim data) s.

(** [openclawProcess.on('close', ...)]; the exit code is null when the child
    was ended by a signal. *)
Definition on_close (code : option Z) (s : state) : state :=
  let shown := match code with Some c => String_of_int c | None => lit "null" end in
  let s := console_log (lit "OpenClaw exited with code " ++ shown) s in
  let s := set_openclawHealthy false s in
  setTimeout CbStartOpenClaw 5000 s.

Definition fire (f : callback) (s : state) : state :=
  match f with
  | CbStartOpenClaw => startOpenClaw s
  | CbMarkHealthy => set_openclawHealthy true s
  end.

(** The timer that runs next: the earliest one, the one set first among
    equals. *)
Fixpoint next_timer (q : list timer) : option timer :=
  match q with
  | [] => None
  | tm :: q' =>
      match next_timer q' with
      | Some m => if due tm <=? due m then Some tm else Some m
      | None => Some tm
      end
  end.

Fixpoint remove_timer (tm : timer) (q : list timer) : list timer :=
  match q with
  | [] => []
  | x :: q' => if decide (x = tm) then q' else x :: remove_timer tm q'
  end.

(** A start callback sets one more timer and a health callback none, so a
    queue can run at most this many callbacks before it is empty. *)
Definition fuel_of (tm : timer) : nat :=
  match cb tm with CbStartOpenClaw => 2 | CbMarkHealthy => 1 end.

Fixpoint queue_fuel (q : list timer) : nat :=
  match q with
  | [] => 0
  | tm :: q' => (fuel_of tm + queue_fuel q')%nat
  end.

(** Run every timer that is due at or before [t], each at its own due time,
    and leave the clock at [t]. *)
Fixpoint run_timers (fuel : nat) (t : N) (s : state) : state :=
  match fuel with
  | O => set_now t s
  | S fuel' =>
      match next_timer (timers s) with
      | Some tm =>
          if due tm <=? t then
            let s := set_now (N.max (now s) (due tm)) s in
            let s := set_timers (remove_timer tm (timers s)) s in
            run_timers fuel' t (fire (cb tm) s)
          else set_now t s
      | None => set_now t s
      end
  end.

(** [ms] milliseconds pass with nothing happening but timers. *)
Definition elapse (ms : N) (s : state) : state :=
  run_timers (queue_fuel (timers s)) (now s + ms) s.

(** What can happen to the running sidecar. *)
Inductive event :=
| StdoutData (data : jsstring)
| StderrData (data : jsstring)
| Close (code : option Z)
| Elapse (ms : N).

Definition handle (e : event) (s : state) : state :=
  match e with
  | StdoutData d => on_stdout_data d s
  | StderrData d => on_stderr_data d s
  | Close c => on_close c s
  | Elapse ms => elapse ms s
  end.

Definition run (evs : list event) (s : state) : state :=
  fold_left (fun s e => handle e s) evs s.

(** A chunk the child writes, on either stream. *)
Definition output (x : stream * jsstring) : event :=
  match fst x with
  | Stdout => StdoutData (snd x)
  | Stderr => StderrData (snd x)
  end.

(** The state the module starts in, and the state after the top-level call
    of [startOpenClaw]. *)
Definition initial (e : gmap jsstring jsstring) : state :=
  State false None e 0 [] [] [].

Definition boot (e : gmap jsstring jsstring) : state :=
  startOpenClaw (initial e).

(** The HTTP server. *)
Record request := Request { method : jsstring; url : jsstring }.

Record response := Response {
  statusCode : Z;
  headers : list (jsstring * jsstring);
  body : jsstring
}.

Definition health_ok : json :=
  JObject [(lit "status", JString (lit "ok"));
           (lit "openclaw", JString (lit "running"));
           (lit "wsPort", JNumber OPENCLAW_PORT)].

Definition health_starting : json :=
  JObject [(lit "status", JString (lit "starting"))].

Definition server (req : request) (s : state) : response :=
  if bool_decide (url req = lit "/health") || bool_decide (url req = lit "/")
  then
    if openclawHealthy s then
      Response 200 [(lit "Content-Type", lit "application/json")]
               (JSON_stringify health_ok)
    else
      Response 503 [(lit "Content-Type", lit "application/json")]
               (JSON_stringify health_starting)
  else
    Response 302
      [(lit "Location",
        lit "http://localhost:" ++ String_of_int OPENCLAW_PORT ++ url req)]
      [].

(** The due times of the restarts that are pending. *)
Fixpoint restarts (q : list timer) : list N :=
  match q with
  | [] => []
  | tm :: q' =>
      match cb tm with
      | CbStartOpenClaw => due tm :: restarts q'
      | CbMarkHealthy => restarts q'
      end
  end.




(** The path of a request target: what comes before the query string, if
    there is one. [req.url] is the whole target. *)
Fixpoint pathname (target : jsstring) : jsstring :=
  match target with
  | [] => []
  | c :: target' => if c =? 63 then [] else c :: pathname target'
  end.

End Sidecar.

(** ** The desktop store (src/apps/desktop/src/lib/store.ts) *)

Module Store.

Inductive AppScreen := loading | settings | chat.

Record GatewayInfo := { url : jsstring; port : Z; token : jsstring }.

Inductive GatewayStatus :=
| GatewayStopped
| GatewayStarting
| GatewayRunning (info : GatewayInfo)
| GatewayError (message : jsstring).

Inductive RuntimeStatus :=
| RuntimeChecking
| RuntimeDownloading (progress : Q)
| RuntimeInstalled (version : jsstring)
| RuntimeError (message : jsstring).

(** The data fields of [AppState]; the five setters are the functions
    below. *)
Record AppState := {
  screen : AppScreen;
  gatewayStatus : GatewayStatus;
  runtimeStatus : RuntimeStatus;
  apiKeyConfigured : bool;
  error : option jsstring
}.

(** The argument of zustand's [set]: an object with some of the fields. *)
Record Partial := {
  p_screen : option AppScreen;
  p_gatewayStatus : option GatewayStatus;
  p_runtimeStatus : option RuntimeStatus;
  p_apiKeyConfigured : option bool;
  p_error : option (option jsstring)
}.

Definition nothing : Partial :=
  {| p_screen := None; p_gatewayStatus := None; p_runtimeStatus := None;
     p_apiKeyConfigured := None; p_error := None |}.

(** [set(partial)]: the fields present in [partial] replace the state's. *)
Definition set (p : Partial) (s : AppState) : AppState :=
  {| screen := default (screen s) (p_screen p);
     gatewayStatus := default (gatewayStatus s) (p_gatewayStatus p);
     runtimeStatus := default (runtimeStatus s) (p_runtimeStatus p);
     apiKeyConfigured := default (apiKeyConfigured s) (p_apiKeyConfigured p);
     error := default (error s) (p_error p) |}.

Definition useAppStore : AppState :=
  {| screen := loading;
     gatewayStatus := GatewayStopped;
     runtimeStatus := RuntimeChecking;
     apiKeyConfigured := false;
     error := None |}.

Definition setScreen (v : AppScreen) : AppState -> AppState :=
  set {| p_screen := Some v; p_gatewayStatus := None; p_runtimeStatus := None;
         p_apiKeyConfigured := None; p_error := None |}.

Definition setGatewayStatus (v : GatewayStatus) : AppState -> AppState :=
  set {| p_screen := None; p_gatewayStatus := Some v; p_runtimeStatus := None;
         p_apiKeyConfigured := None; p_error := None |}.

Definition setRuntimeStatus (v : RuntimeStatus) : AppState -> AppState :=
  set {| p_screen := None; p_gatewayStatus := None; p_runtimeStatus := Some v;
         p_apiKeyConfigured := None; p_error := None |}.

Definition setApiKeyConfigured (v : bool) : AppState -> AppState :=
  set {| p_screen := None; p_gatewayStatus := None; p_runtimeStatus := None;
         p_apiKeyConfigured := Some v; p_error := None |}.

Definition setError (v : option jsstring) : AppState -> AppState :=
  set {| p_screen := None; p_gatewayStatus := None; p_runtimeStatus := None;
         p_apiKeyConfigured := None; p_error := Some v |}.

End Store.

(** ** What a component renders *)

Module React.

(** The functions the components pass as event handlers. *)
Inductive handler :=
| HandleInstallRuntime
| HandleSave
| HandleApiKeyChange.

Inductive prop :=
| PString (s : jsstring)
| PBool (b : bool)
| PHandler (h : handler)
| PStyle (declarations : list (string * jsstring)).

(** A rendered child: a string, a value React renders as nothing (null or
    false), or an element with its props and children. *)
#[warnings="-register-all"]
Inductive node :=
| Text (s : jsstring)
| Nothing
| Element (tag : string) (props : list (string * prop)) (children : list node).

Definition attr (name value : string) : string * prop :=
  (name, PString (lit value)).

Definition className (value : string) : string * prop :=
  attr "className" value.

Definition el (tag class : string) (children : list node) : node :=
  Element tag [className class] children.

(** Every string child of the tree, in document order. *)
Fixpoint texts (n : node) : list jsstring :=
  match n with
  | Text s => [s]
  | Nothing => []
  | Element _ _ children =>
      (fix go (cs : list node) : list jsstring :=
         match cs with
         | [] => []
         | c :: cs' => texts c ++ go cs'
         end) children
  end.

(** The node reached by going down to the child of the given index at each
    level. *)
Fixpoint at_path (path : list nat) (n : node) : option node :=
  match path with
  | [] => Some n
  | i :: path' =>
      match n with
      | Element _ _ children =>
          match nth_error children i with
          | Some c => at_path path' c
          | None => None
          end
      | _ => None
      end
  end.

(** [Math.round]: the nearest integer, halves upwards. *)
Definition Math_round (x : Q) : Z := Qfloor (x + (1 # 2)).

End React.

(** ** The settings screen (src/apps/desktop/src/components/Settings.tsx) *)

Module Settings.

Import Store.

(** A value a rejected promise carries: an [Error] with its message, or
    anything else, given by what [String] makes of it. (A value on which
    [String] itself throws is not among these; see [Await.rejection].) *)
Inductive thrown :=
| ThrownError (message : jsstring)
| ThrownValue (shown : jsstring).

(** [err instanceof Error ? err.message : String(err)] *)
Definition message_of (err : thrown) : jsstring :=
  match err with
  | ThrownError m => m
  | ThrownValue v => v
  end.

Inductive outcome (A : Type) :=
| Returned (a : A)
| Thrown (e : thrown).
Arguments Returned {A} a.
Arguments Thrown {A} e.

(** The commands of the host bridge ([lib/tauri]) the component calls; how
    each one ends is up to the host. *)
Record tauri := {
  setApiKey_result : jsstring -> outcome unit;
  startGateway_result : outcome GatewayInfo;
  installRuntime_result : outcome unit
}.

Inductive tauri_call :=
| CallSetApiKey (key : jsstring)
| CallStartGateway
| CallInstallRuntime.

(** The field of the bridge's runtime status the component reads. *)
Record TauriRuntimeStatus := { version : jsstring }.

(** The store, the component's own [useState] cells, and the bridge calls
    made so far, oldest first. *)
Record world := World {
  store : AppState;
  apiKey : jsstring;
  saving : bool;
  runtimeDetails : option TauriRuntimeStatus;
  calls : list tauri_call
}.

(** Handlers run in a state monad over [world] whose computations can
    throw. *)
Definition M (A : Type) : Type := world -> outcome A * world.

Definition ret {A} (a : A) : M A := fun w => (Returned a, w).

Definition bind {A B} (m : M A) (k : A -> M B) : M B :=
  fun w =>
    match m w with
    | (Returned a, w') => k a w'
    | (Thrown e, w') => (Thrown e, w')
    end.

Notation "x <- m ;; k" := (bind m (fun x => k))
  (at level 100, m at next level, right associativity).
Notation "m ;; k" := (bind m (fun _ => k))
  (at level 100, right associativity).

Definition try_catch {A} (body : M A) (handler : thrown -> M A) : M A :=
  fun w =>
    match body w with
    | (Returned a, w') => (Returned a, w')
    | (Thrown e, w') => handler e w'
    end.

Definition try_finally {A} (body : M A) (cleanup : M unit) : M A :=
  fun w =>
    match body w with
    | (r, w') =>
        match cleanup w' with
        | (Returned _, w'') => (r, w'')
        | (Thrown e, w'') => (Thrown e, w'')
        end
    end.

Definition update_store (f : AppState -> AppState) : M unit :=
  fun w =>
    (Returned tt,
     World (f (store w)) (apiKey w) (saving w) (runtimeDetails w) (calls w)).

Definition setSaving (b : bool) : M unit :=
  fun w =>
    (Returned tt, World (store w) (apiKey w) b (runtimeDetails w) (calls w)).

Definition call {A} (c : tauri_call) (r : outcome A) : M A :=
  fun w =>
    (r, World (store w) (apiKey w) (saving w) (runtimeDetails w)
              (calls w ++ [c])).

Section Handlers.

Variable host : tauri.

Definition tauri_setApiKey (key : jsstring) : M unit :=
  call (CallSetApiKey key) (setApiKey_result host key).

Definition tauri_startGateway : M GatewayInfo :=
  call CallStartGateway (startGateway_result host).

Definition tauri_installRuntime : M unit :=
  call CallInstallRuntime (installRuntime_result host).

Definition handleInstallRuntime : M unit :=
  update_store (setRuntimeStatus (RuntimeDownloading 0)) ;;
  try_catch
    tauri_installRuntime
    (fun err =>
       let message := message_of err in
       update_store (setRuntimeStatus (RuntimeError message))).

Definition is_installed (r : RuntimeStatus) : bool :=
  match r with RuntimeInstalled _ => true | _ => false end.

(** [handleSave] closes over the [apiKey] and [runtimeStatus] of the render
    it was created in, here the world it starts in. *)
Definition handleSave : M unit :=
  fun w0 =>
    let apiKey := apiKey w0 in
    let runtimeStatus := runtimeStatus (store w0) in
    (if negb (truthy (trim apiKey)) then ret tt
     else if negb (is_installed runtimeStatus) then
       update_store
         (setError (Some (lit "Please wait for the runtime to finish installing.")))
     else
       setSaving true ;;
       update_store (setError None) ;;
       try_finally
         (try_catch
            (tauri_setApiKey (trim apiKey) ;;
             update_store (setApiKeyConfigured true) ;;
             update_store (setGatewayStatus GatewayStarting) ;;
             info <- tauri_startGateway ;;
             update_store (setGatewayStatus (GatewayRunning info)) ;;
             update_store (setScreen chat))
            (fun err =>
               let message := message_of err in
               update_store (setError (Some message)) ;;
               update_store (setGatewayStatus (GatewayError message))))
         (setSaving false)) w0.

End Handlers.

Section Render.

Import React.

(** Number::toString on a number that need not be an integer. *)
Variable Number_toString : Q -> jsstring.

Definition runtime_box (runtimeStatus : RuntimeStatus) : node :=
  el "div" "mb-8 p-5 rounded-xl bg-white/[0.02] border border-white/10"
    [match runtimeStatus with
     | RuntimeDownloading progress =>
         el "div" "space-y-3"
           [el "div" "flex items-center gap-3"
              [el "Download" "w-5 h-5 text-blue-400 animate-pulse" [];
               el "div" "flex-1"
                 [el "p" "text-[15px] text-white/70" [Text (lit "Setting up...")];
                  el "p" "text-[13px] text-white/40"
                    [Text (lit "Downloading runtime (");
                     Text (Number_toString (inject_Z (Math_round progress)));
                     Text (lit "%)")]]];
            el "div" "w-full h-1.5 bg-white/10 rounded-full overflow-hidden"
              [Element "div"
                 [className "h-full bg-blue-500 rounded-full transition-all duration-300";
                  ("style"%string,
                   PStyle [("width"%string, Number_toString progress ++ lit "%")])]
                 []]]
     | RuntimeError message =>
         el "div" "flex items-start gap-3"
           [el "AlertCircle" "w-5 h-5 text-red-400 mt-0.5" [];
            el "div" "flex-1"
              [el "p" "text-[15px] text-white/70" [Text (lit "Setup failed")];
               el "p" "text-[13px] text-white/40 mb-3" [Text message];
               Element "button"
                 [("onClick"%string, PHandler HandleInstallRuntime);
                  className "text-[13px] text-blue-400 hover:text-blue-300 transition-colors"]
                 [Text (lit "Try again")]]]
     | _ =>
         el "div" "flex items-center gap-3"
           [el "Loader2" "w-5 h-5 text-white/40 animate-spin" [];
            el "p" "text-[15px] text-white/50" [Text (lit "Checking system...")]]
     end].

Definition error_box (error : option jsstring) : node :=
  match error with
  | None => Nothing
  | Some [] => Text []
  | Some message =>
      el "div" "mb-8 p-5 rounded-xl bg-white/[0.02] border border-white/10"
        [el "p" "text-[15px] text-white/70 mb-1" [Text (lit "Something went wrong")];
         el "p" "text-[13px] text-white/40" [Text message]]
  end.

(** What [Settings] returns. *)
Definition Settings (w : world) : node :=
  let error := error (store w) in
  let runtimeStatus := runtimeStatus (store w) in
  let apiKey := apiKey w in
  let saving := saving w in
  let runtimeReady := is_installed runtimeStatus in
  el "div" "flex flex-col items-center justify-center min-h-screen bg-[#0a0a0a] text-[#fafafa] antialiased p-8"
    [el "div" "w-full max-w-md"
       [el "div" "text-center mb-12"
          [el "h1" "text-[28px] font-medium tracking-[-0.02em] mb-3"
             [Text (lit "Enter your API key")];
           el "p" "text-[15px] text-white/50 leading-relaxed"
             [Text (lit "Your key stays on your computer. We never see it.")]];
        (if negb runtimeReady then runtime_box runtimeStatus else Nothing);
        error_box error;
        el "div" "space-y-6"
          [Element "div" []
             [Element "input"
                [attr "type" "password";
                 ("value"%string, PString apiKey);
                 ("onChange"%string, PHandler HandleApiKeyChange);
                 attr "placeholder" "sk-ant-api03-...";
                 className "w-full px-4 py-3 rounded-xl bg-white/[0.02] border border-white/10 text-[15px] placeholder-white/30 focus:outline-none focus:border-white/20 font-mono transition-colors";
                 ("disabled"%string, PBool (saving || negb runtimeReady));
                 ("autoFocus"%string, PBool runtimeReady)]
                []];
           Element "button"
             [("onClick"%string, PHandler HandleSave);
              ("disabled"%string,
               PBool (negb (truthy (trim apiKey)) || saving || negb runtimeReady));
              ("className"%string,
               PString
                 (lit "w-full py-3 rounded-xl text-[15px] font-medium transition-all flex items-center justify-center gap-2 "
                  ++ (if truthy (trim apiKey) && negb saving && runtimeReady
                      then lit "bg-white text-black hover:bg-white/90"
                      else lit "bg-white/5 text-white/30 cursor-not-allowed")))]
             [if saving then
                Element "Fragment" []
                  [el "Loader2" "w-4 h-4 animate-spin" [];
                   Text (lit "Starting...")]
              else if negb runtimeReady then Text (lit "Waiting for setup...")
              else Text (lit "Continue")]];
        el "p" "mt-8 text-[13px] text-white/30 text-center"
          [Text (lit "Get your key from");
           Text (lit " ");
           Element "a"
             [attr "href" "https://console.anthropic.com/settings/keys";
              attr "target" "_blank";
              attr "rel" "noopener noreferrer";
              className "text-white/50 hover:text-white/70 transition-colors"]
             [Text (lit "console.anthropic.com")]];
        (if runtimeReady then
           match runtimeDetails w with
           | Some details =>
               el "p" "mt-4 text-[11px] text-white/20 text-center"
                 [el "Check" "w-3 h-3 inline mr-1 text-green-500/50" [];
                  Text (lit "Node.js ");
                  Text (version details);
                  Text (lit " ready")]
           | None => Nothing
           end
         else Nothing)]].

End Render.

End Settings.

(** ** The loading screen (src/unnamed/part_002) *)

Module Loading.

Import Store React.

Record content := {
  icon : node;
  text : jsstring;
  subtext : option jsstring;
  progress : option Q
}.

Section Render.

Variable Number_toString : Q -> jsstring.

(** The [default] arm of the switch is not reachable: the four variants are
    all there are. *)
Definition getStatusContent (runtimeStatus : RuntimeStatus) : content :=
  match runtimeStatus with
  | RuntimeChecking =>
      {| icon := el "Loader2" "w-6 h-6 animate-spin text-white/40" [];
         text := lit "Checking system...";
         subtext := None;
         progress := None |}
  | RuntimeDownloading p =>
      {| icon := el "Download" "w-6 h-6 text-blue-400 animate-pulse" [];
         text := lit "Setting up (first time only)";
         subtext :=
           Some (lit "Downloading Node.js runtime... "
                 ++ Number_toString (inject_Z (Math_round p)) ++ lit "%");
         progress := Some p |}
  | RuntimeInstalled _ =>
      {| icon := el "Check" "w-6 h-6 text-green-400" [];
         text := lit "Starting...";
         subtext := None;
         progress := None |}
  | RuntimeError message =>
      {| icon := el "AlertCircle" "w-6 h-6 text-red-400" [];
         text := lit "Setup failed";
         subtext := Some message;
         progress := None |}
  end.

(** What [Loading] returns. *)
Definition Loading (st : AppState) : node :=
  let runtimeStatus := runtimeStatus st in
  let content := getStatusContent runtimeStatus in
  el "div" "flex flex-col items-center justify-center h-screen bg-[#0a0a0a] text-[#fafafa] antialiased"
    [el "div" "flex flex-col items-center space-y-4 max-w-md px-8"
       [icon content;
        el "p" "text-[15px] text-white/80 font-medium" [Text (text content)];
        match subtext content with
        | None => Nothing
        | Some [] => Text []
        | Some sub => el "p" "text-[13px] text-white/40 text-center" [Text sub]
        end;
        match progress content with
        | Some p =>
            el "div" "w-64 h-1.5 bg-white/10 rounded-full overflow-hidden"
              [Element "div"
                 [className "h-full bg-blue-500 rounded-full transition-all duration-300 ease-out";
                  ("style"%string,
                   PStyle [("width"%string, Number_toString p ++ lit "%")])]
                 []]
        | None => Nothing
        end;
        match runtimeStatus with
        | RuntimeDownloading _ =>
            el "p" "text-[11px] text-white/30 text-center mt-4"
              [Text (lit "This downloads a lightweight Node.js runtime (~45MB).");
               Element "br" [] [];
               Text (lit "You won't need to do this again.")]
        | _ => Nothing
        end]].

End Render.

End Loading.

(** ** The desktop application as a transition system *)

Module App.

Import Store Settings.

Definition initial : world := World useAppStore [] false None [].

(** Modelled from the spec: the part of the desktop shell that receives the
    runtime-install reports of the host and stores them (the bridge in
    [lib/tauri] and its listener) is not among the sources. The data model
    gives what a report can be: one of the four variants of [RuntimeStatus],
    with a progress from 0 to 100 when it is [downloading]. *)
Definition valid_report (r : RuntimeStatus) : Prop :=
  match r with
  | RuntimeDownloading p => (0 <= p)%Q /\ (p <= 100)%Q
  | _ => True
  end.

(** Modelled from the spec: the listener stores the report it receives with
    [setRuntimeStatus]. *)
Definition host_report (r : RuntimeStatus) (w : world) : world :=
  World (setRuntimeStatus r (store w)) (apiKey w) (saving w)
        (runtimeDetails w) (calls w).

(** The input's [onChange] and the polling effect of [Settings]. *)
Definition type_key (key : jsstring) (w : world) : world :=
  World (store w) key (saving w) (runtimeDetails w) (calls w).

Definition poll (d : option TauriRuntimeStatus) (w : world) : world :=
  World (store w) (apiKey w) (saving w) d (calls w).

(** One step of the application. A handler is taken from its call to its
    end in one step, as when nothing else happens while it waits; the
    handlers cut at their awaits are in [Await]. *)
Inductive step : world -> world -> Prop :=
| step_install host w : step w (snd (handleInstallRuntime host w))
| step_save host w : step w (snd (handleSave host w))
| step_type key w : step w (type_key key w)
| step_poll d w : step w (poll d w)
| step_report r w : valid_report r -> step w (host_report r w).

Inductive reachable : world -> Prop :=
| reachable_initial : reachable initial
| reachable_step w w' : reachable w -> step w w' -> reachable w'.

Definition progress_in_range (w : world) : Prop :=
  match runtimeStatus (store w) with
  | RuntimeDownloading p => (0 <= p)%Q /\ (p <= 100)%Q
  | _ => True
  end.

End App.

(** ** Hosts and a world to try the handlers on *)

Definition gateway_info : Store.GatewayInfo :=
  {| Store.url := lit "ws://127.0.0.1:18789"; Store.port := 18789;
     Store.token := lit "t0k3n" |}.

Definition host_ok : Settings.tauri :=
  {| Settings.setApiKey_result := fun _ => Settings.Returned tt;
     Settings.startGateway_result := Settings.Returned gateway_info;
     Settings.installRuntime_result := Settings.Returned tt |}.

Definition host_gateway_fails : Settings.tauri :=
  {| Settings.setApiKey_result := fun _ => Settings.Returned tt;
     Settings.startGateway_result :=
       Settings.Thrown (Settings.ThrownValue (lit "Gateway failed to start"));
     Settings.installRuntime_result := Settings.Returned tt |}.

Definition host_key_fails : Settings.tauri :=
  {| Settings.setApiKey_result :=
       fun _ => Settings.Thrown (Settings.ThrownError (lit "keychain is locked"));
     Settings.startGateway_result := Settings.Returned gateway_info;
     Settings.installRuntime_result :=
       Settings.Thrown (Settings.ThrownValue (lit "download failed: 503")) |}.

Definition ready_world (key : string) : Settings.world :=
  Settings.World
    (Store.setRuntimeStatus (Store.RuntimeInstalled (lit "v22.12.0"))
       (Store.setScreen Store.settings Store.useAppStore))
    (lit key) false None [].

(** ** The sidecar under an environment that plays by the rules *)

Module Supervision.

Import Sidecar.

(** The states the sidecar gets to, with the number of children that have
    exited so far: the child writes, time passes, and a child can exit only
    if one is running, that is if more have been spawned than have exited. *)
Inductive supervised : state -> nat -> Prop :=
| supervised_boot e : supervised (boot e) 0
| supervised_output s n x :
    supervised s n -> supervised (handle (output x) s) n
| supervised_elapse s n ms :
    supervised s n -> supervised (handle (Elapse ms) s) n
| supervised_close s n code :
    supervised s n -> (n < length (spawns s))%nat ->
    supervised (handle (Close code) s) (S n).

(** Either a child is running and no restart is pending, or none is running
    and one restart is pending, due within five seconds. *)
Definition one_gateway (s : state) (n : nat) : Prop :=
  (length (spawns s) = S n /\ restarts (timers s) = [])
  \/ (length (spawns s) = n
      /\ exists T, restarts (timers s) = [T] /\ now s < T <= now s + 5000).

Definition is_close (e : event) : bool :=
  match e with Close _ => true | _ => false end.

Definition has_marker (data : jsstring) : bool :=
  includes data (lit "listening") || includes data (lit "started").

(** A chunk that cannot mark the sidecar healthy: anything on stderr, and on
    stdout a chunk with neither marker inside. *)
Definition unmarked (x : stream * jsstring) : bool :=
  match fst x with
  | Stdout => negb (has_marker (snd x))
  | Stderr => true
  end.

(** The two signal handlers, [process.on('SIGTERM', ...)] and
    [process.on('SIGINT', ...)]. Around the sidecar's state: which child
    (counted from 1 in the order spawned) each [kill('SIGTERM')] went to,
    whether [server.close] has been called, and the code [process.exit] was
    called with. *)
Inductive signal := SIGTERM | SIGINT.

Record process := Process {
  sidecar : state;
  kills : list nat;
  closing : bool;
  exited : option Z
}.

Definition signal_name (sig : signal) : jsstring :=
  match sig with SIGTERM => lit "SIGTERM" | SIGINT => lit "SIGINT" end.

Definition on_signal (sig : signal) (p : process) : process :=
  let s :=
    console_log (lit "Received " ++ signal_name sig ++ lit ", shutting down...")
      (sidecar p) in
  let killed :=
    match openclawProcess s with
    | Some _ => kills p ++ [length (spawns s)]
    | None => kills p
    end in
  Process s killed true (exited p).

(** The callback given to [server.close]. *)
Definition on_server_closed (p : process) : process :=
  Process (sidecar p) (kills p) (closing p) (Some 0%Z).

Inductive process_event :=
| Signal (sig : signal)
| ServerClosed
| Gateway (e : event).

(** Nothing runs once [process.exit] has been called, and the server's
    callback runs only after [server.close]. *)
Definition process_handle (e : process_event) (p : process) : process :=
  match exited p with
  | Some _ => p
  | None =>
      match e with
      | Signal sig => on_signal sig p
      | ServerClosed => if closing p then on_server_closed p else p
      | Gateway e' =>
          Process (handle e' (sidecar p)) (kills p) (closing p) (exited p)
      end
  end.

Definition is_signal (e : process_event) : bool :=
  match e with Signal _ => true | _ => false end.

Definition process_run (evs : list process_event) (p : process) : process :=
  fold_left (fun p e => process_handle e p) evs p.

Definition started (e : gmap jsstring jsstring) : process :=
  Process (boot e) [] false None.

End Supervision.

(** ** Reading a rendered tree, and two updates of the store as one *)

Module Screen.

Import Store Settings React.

(** A string of whitespace only. *)
Definition blank (s : jsstring) : Prop :=
  Forall (fun c => isWhiteSpace c = true) s.

(** The value of a prop of an element. *)
Fixpoint lookup_prop (name : string) (props : list (string * prop)) : option prop :=
  match props with
  | [] => None
  | (k, v) :: props' =>
      if String.eqb k name then Some v else lookup_prop name props'
  end.

Definition prop_at (path : list nat) (name : string) (n : node) : option prop :=
  match at_path path n with
  | Some (Element _ props _) => lookup_prop name props
  | _ => None
  end.

(** Two [set]s in a row as one: a field of the later one wins. *)
Definition override (later earlier : Partial) : Partial :=
  {| p_screen := from_option Some (p_screen earlier) (p_screen later);
     p_gatewayStatus :=
       from_option Some (p_gatewayStatus earlier) (p_gatewayStatus later);
     p_runtimeStatus :=
       from_option Some (p_runtimeStatus earlier) (p_runtimeStatus later);
     p_apiKeyConfigured :=
       from_option Some (p_apiKeyConfigured earlier) (p_apiKeyConfigured later);
     p_error := from_option Some (p_error earlier) (p_error later) |}.

Definition both {A B} (a : option A) (b : option B) : bool :=
  match a, b with Some _, Some _ => true | _, _ => false end.

(** No field is in both objects. *)
Definition apart (p q : Partial) : bool :=
  negb (both (p_screen p) (p_screen q))
  && negb (both (p_gatewayStatus p) (p_gatewayStatus q))
  && negb (both (p_runtimeStatus p) (p_runtimeStatus q))
  && negb (both (p_apiKeyConfigured p) (p_apiKeyConfigured q))
  && negb (both (p_error p) (p_error q)).

End Screen.

(** ** The two handlers of the settings screen, await by await *)

Module Await.

Import Store Settings.

(** What a rejected promise can carry, as the catch blocks see it: a value
    they can make a message of (an [Error], or a value [String] converts),
    or a value on which [String(err)] itself throws, such as an object
    without a prototype. *)
Inductive rejection :=
| Legible (err : thrown)
| Illegible.

(** How an awaited call has ended when the handler is resumed. *)
Inductive settled (A : Type) :=
| Fulfilled (a : A)
| Rejected (r : rejection).
Arguments Fulfilled {A} a.
Arguments Rejected {A} r.

Definition settled_of {A} (o : outcome A) : settled A :=
  match o with
  | Returned a => Fulfilled a
  | Thrown err => Rejected (Legible err)
  end.

Definition throw {A} (e : thrown) : M A := fun w => (Thrown e, w).

(** The call is made; the handler then waits for it. *)
Definition issue (c : tauri_call) : M unit := call c (Returned tt).

(** Where a handler stands when it gives up control. *)
Inductive progress := Finished | Waiting.

Section Segments.

(** The [TypeError] that [String(err)] throws on a value it cannot
    convert. *)
Variable conversion_error : thrown.

(** [err instanceof Error ? err.message : String(err)] *)
Definition message_or_throw (r : rejection) : M jsstring :=
  match r with
  | Legible err => ret (message_of err)
  | Illegible => throw conversion_error
  end.

(** [handleInstallRuntime] up to its [await]. *)
Definition handleInstallRuntime_start : M unit :=
  update_store (setRuntimeStatus (RuntimeDownloading 0)) ;;
  issue CallInstallRuntime.

(** [handleInstallRuntime] from its [await] on, in the world it is resumed
    in. *)
Definition handleInstallRuntime_resume (r : settled unit) : M unit :=
  match r with
  | Fulfilled _ => ret tt
  | Rejected rej =>
      message <- message_or_throw rej ;;
      update_store (setRuntimeStatus (RuntimeError message))
  end.

(** [handleSave] up to [await tauri.setApiKey(...)], or to its end when a
    guard returns. *)
Definition handleSave_start : M progress :=
  fun w0 =>
    let apiKey := apiKey w0 in
    let runtimeStatus := runtimeStatus (store w0) in
    (if negb (truthy (trim apiKey)) then ret Finished
     else if negb (is_installed runtimeStatus) then
       update_store
         (setError (Some (lit "Please wait for the runtime to finish installing."))) ;;
       ret Finished
     else
       setSaving true ;;
       update_store (setError None) ;;
       issue (CallSetApiKey (trim apiKey)) ;;
       ret Waiting) w0.

(** The catch block of [handleSave]. *)
Definition handleSave_catch (rej : rejection) : M unit :=
  message <- message_or_throw rej ;;
  update_store (setError (Some message)) ;;
  update_store (setGatewayStatus (GatewayError message)).

(** [handleSave] from [await tauri.setApiKey(...)] to
    [await tauri.startGateway()], or through catch and finally to its end. *)
Definition handleSave_after_setApiKey (r : settled unit) : M progress :=
  match r with
  | Fulfilled _ =>
      update_store (setApiKeyConfigured true) ;;
      update_store (setGatewayStatus GatewayStarting) ;;
      issue CallStartGateway ;;
      ret Waiting
  | Rejected rej =>
      try_finally (handleSave_catch rej) (setSaving false) ;;
      ret Finished
  end.

(** [handleSave] from [await tauri.startGateway()] to its end. *)
Definition handleSave_after_startGateway (r : settled GatewayInfo) : M unit :=
  try_finally
    (match r with
     | Fulfilled info =>
         update_store (setGatewayStatus (GatewayRunning info)) ;;
         update_store (setScreen chat)
     | Rejected rej => handleSave_catch rej
     end)
    (setSaving false).

(** The segments one after the other with nothing in between, for a host
    whose calls end as [host] says. *)
Definition handleInstallRuntime_straight (host : tauri) : M unit :=
  handleInstallRuntime_start ;;
  handleInstallRuntime_resume (settled_of (installRuntime_result host)).

Definition handleSave_straight (host : tauri) : M unit :=
  fun w0 =>
    (at1 <- handleSave_start ;;
     match at1 with
     | Finished => ret tt
     | Waiting =>
         at2 <- handleSave_after_setApiKey
                  (settled_of (setApiKey_result host (trim (apiKey w0)))) ;;
         match at2 with
         | Finished => ret tt
         | Waiting =>
             handleSave_after_startGateway
               (settled_of (startGateway_result host))
         end
     end) w0.

End Segments.

End Await.

(** ** The sidecar builder script (in the listing of next.config.ts) *)

Module Builder.

Record target := Target {
  tauri : jsstring;
  os : jsstring;
  arch : jsstring;
  ext : jsstring
}.

Definition TARGETS : list target :=
  [Target (lit "aarch64-apple-darwin") (lit "darwin") (lit "arm64") [];
   Target (lit "x86_64-apple-darwin") (lit "darwin") (lit "x64") [];
   Target (lit "x86_64-unknown-linux-gnu") (lit "linux") (lit "x64") [];
   Target (lit "x86_64-pc-windows-msvc") (lit "win32") (lit "x64") (lit ".exe")].

(** [getCurrentTarget], given [process.platform] and [process.arch]. *)
Definition getCurrentTarget (platform arch : jsstring) : option jsstring :=
  if bool_decide (platform = lit "darwin") then
    Some (if bool_decide (arch = lit "arm64")
          then lit "aarch64-apple-darwin"
          else lit "x86_64-apple-darwin")
  else if bool_decide (platform = lit "linux") then
    Some (lit "x86_64-unknown-linux-gnu")
  else if bool_decide (platform = lit "win32") then
    Some (lit "x86_64-pc-windows-msvc")
  else None.

Definition isDigit (c : N) : bool := (48 <=? c) && (c <=? 57).

(** The longest run of decimal digits at the front, as a number; [None] when
    there is no digit. *)
Fixpoint parse_digits (acc : option N) (s : jsstring) : option N :=
  match s with
  | c :: s' =>
      if isDigit c
      then parse_digits (Some (10 * default 0 acc + (c - 48))) s'
      else acc
  | [] => acc
  end.

(** A Number that [parseInt] can return: NaN, an integer below 2^53 in
    absolute value, which a double holds exactly, or the double the engine
    makes of an integer of the given sign and of a magnitude of 2^53 or
    more: the nearest one, or an infinity, in any case a double of 2^53 or
    more in absolute value. *)
Inductive number :=
| NaN
| Exact (z : Z)
| Rounded (negative : bool) (magnitude : N).

Definition Number_of (negative : bool) (n : N) : number :=
  if n <? 2 ^ 53
  then Exact (if negative then - Z.of_N n else Z.of_N n)%Z
  else Rounded negative n.

(** The string after leading whitespace and one sign, and whether the sign
    was a minus. *)
Definition unsigned (s : jsstring) : bool * jsstring :=
  match trimStart s with
  | 45 :: s' => (true, s')
  | 43 :: s' => (false, s')
  | s' => (false, s')
  end.

(** [parseInt(s, 10)] *)
Definition parseInt (s : jsstring) : number :=
  match parse_digits None (snd (unsigned s)) with
  | None => NaN
  | Some n => Number_of (fst (unsigned s)) n
  end.

(** [x >= 25]; a comparison with NaN is false. *)
Definition at_least_25 (x : number) : bool :=
  match x with
  | NaN => false
  | Exact z => (25 <=? z)%Z
  | Rounded negative _ => negb negative
  end.

(** [s.split('.')[0]] *)
Fixpoint before_dot (s : jsstring) : jsstring :=
  match s with
  | [] => []
  | c :: s' => if c =? 46 then [] else c :: before_dot s'
  end.

Record nodeInfo := {
  version : jsstring;
  major : number;
  supportsSEA : bool
}.

(** [checkNodeVersion], given [process.versions.node]. *)
Definition checkNodeVersion (version : jsstring) : nodeInfo :=
  let major := parseInt (before_dot version) in
  {| version := version;
     major := major;
     supportsSEA := at_least_25 major |}.

End Builder.

(** * Properties *)

(** ** The built-ins on concrete inputs *)

Section BuiltIns.

Import JS.

Example trim_key : trim (lit "  sk-ant-api03-abc ") = lit "sk-ant-api03-abc".
Proof. reflexivity. Qed.

Example trim_blank : trim [32; 9; 160; 10; 8202] = [].
Proof. reflexivity. Qed.

Example trim_inner : trim (lit " a b ") = lit "a b".
Proof. reflexivity. Qed.

Example includes_started :
  includes (lit "Gateway started on port 18789") (lit "started") = true.
Proof. reflexivity. Qed.

Example includes_split_marker :
  includes (lit "Gateway star") (lit "started") = false.
Proof. reflexivity. Qed.

Example String_of_int_negative : String_of_int (-15) = lit "-15".
Proof. reflexivity. Qed.

Example quote_backslash : quote (lit "a\b") = [34; 97; 92; 92; 98; 34].
Proof. reflexivity. Qed.

Example quote_newline : quote [97; 10; 1] = 34 :: lit "a\n\u0001" ++ [34].
Proof. reflexivity. Qed.

End BuiltIns.

(** ** String search *)

Section Strings.

Import JS.

Lemma startsWith_app (pat rest : jsstring) : startsWith (pat ++ rest) pat = true.
Proof.
  induction pat as [|p pat IH]; simpl; [reflexivity|].
  rewrite N.eqb_refl. exact IH.
Qed.

Lemma startsWith_split (s pat : jsstring) :
  startsWith s pat = true -> exists rest, s = pat ++ rest.
Proof.
  revert s. induction pat as [|p pat IH]; intros s H.
  - exists s. reflexivity.
  - destruct s as [|c s]; simpl in H; [discriminate|].
    apply andb_prop in H as [Hc Hs]. apply N.eqb_eq in Hc. subst c.
    destruct (IH _ Hs) as [rest ->]. exists rest. reflexivity.
Qed.

Lemma includes_prefix (s pat : jsstring) :
  startsWith s pat = true -> includes s pat = true.
Proof. intros H. destruct s; simpl; rewrite H; reflexivity. Qed.

(** [includes] finds exactly the strings that have [pat] somewhere inside. *)
Lemma includes_spec (s pat : jsstring) :
  includes s pat = true <-> exists before after, s = before ++ pat ++ after.
Proof.
  split.
  - induction s as [|c s IH]; simpl; intros H.
    + rewrite orb_false_r in H. apply startsWith_split in H as [rest ->].
      exists [], rest. reflexivity.
    + apply orb_prop in H as [H|H].
      * apply startsWith_split in H as [rest ->]. exists [], rest. reflexivity.
      * destruct (IH H) as (before & after & ->).
        exists (c :: before), after. reflexivity.
  - intros (before & after & ->).
    induction before as [|b before IH]; simpl.
    + apply includes_prefix, startsWith_app.
    + rewrite IH. apply orb_true_r.
Qed.

End Strings.

(** ** The sidecar's HTTP server *)

Section SidecarServer.

Import Sidecar.

Lemma port_text : String_of_int OPENCLAW_PORT = lit "18789".
Proof. reflexivity. Qed.

Lemma health_ok_text :
  JSON_stringify health_ok =
  lit "{" ++ quoted "status" ++ lit ":" ++ quoted "ok" ++ lit ","
    ++ quoted "openclaw" ++ lit ":" ++ quoted "running" ++ lit ","
    ++ quoted "wsPort" ++ lit ":18789}".
Proof. reflexivity. Qed.

Lemma health_starting_text :
  JSON_stringify health_starting =
  lit "{" ++ quoted "status" ++ lit ":" ++ quoted "starting" ++ lit "}".
Proof. reflexivity. Qed.

(** C1, as the claim has it, fails: the handler compares the whole request
    target, so a request whose path is [/health] and that carries a query
    string is not answered by the health branch. It is redirected, healthy
    or not. *)
Lemma health_with_query_is_redirected :
  let req := Request (lit "GET") (lit "/health?probe=1") in
  pathname (url req) = lit "/health"
  /\ server req (set_openclawHealthy true (initial ∅)) =
     Response 302
       [(lit "Location", lit "http://localhost:18789/health?probe=1")] []
  /\ statusCode (server req (initial ∅)) = 302%Z.
Proof. repeat split. Qed.

(** C1, amended. A request whose target is exactly [/health], whatever its
    method, gets status 200 and the JSON text
    [{status: ok, openclaw: running, wsPort: 18789}] when the gateway is
    marked healthy, and status 503 and the JSON text [{status: starting}]
    when it is not. *)
Theorem health_endpoint (m : jsstring) (s : state) :
  server (Request m (lit "/health")) s =
  if openclawHealthy s then
    Response 200 [(lit "Content-Type", lit "application/json")]
      (lit "{" ++ quoted "status" ++ lit ":" ++ quoted "ok" ++ lit ","
         ++ quoted "openclaw" ++ lit ":" ++ quoted "running" ++ lit ","
         ++ quoted "wsPort" ++ lit ":18789}")
  else
    Response 503 [(lit "Content-Type", lit "application/json")]
      (lit "{" ++ quoted "status" ++ lit ":" ++ quoted "starting" ++ lit "}").
Proof.
  unfold server. simpl url.
  rewrite bool_decide_eq_true_2 by reflexivity. simpl orb.
  rewrite health_ok_text, health_starting_text. reflexivity.
Qed.

(** The root path is served by the health branch too. *)
Lemma root_like_health (m : jsstring) (s : state) :
  server (Request m (lit "/")) s = server (Request m (lit "/health")) s.
Proof. reflexivity. Qed.

Lemma other_paths_redirect (req : request) (s : state) :
  url req <> lit "/health" -> url req <> lit "/" ->
  server req s =
  Response 302 [(lit "Location", lit "http://localhost:18789" ++ url req)] [].
Proof.
  intros H1 H2. unfold server.
  rewrite (bool_decide_eq_false_2 _ H1), (bool_decide_eq_false_2 _ H2).
  reflexivity.
Qed.

(** C2, as the claim has it, fails: a request for [/] is not a request for
    [/health], and it is answered by the health branch (here with 503, the
    gateway not being up yet), not by a redirect. *)
Lemma root_is_not_redirected :
  let req := Request (lit "GET") (lit "/") in
  url req <> lit "/health" /\
  statusCode (server req (initial ∅)) = 503%Z /\
  statusCode (server req (set_openclawHealthy true (initial ∅))) = 200%Z /\
  headers (server req (initial ∅)) =
    [(lit "Content-Type", lit "application/json")].
Proof. split; [discriminate | repeat split]. Qed.

(** C2, amended. A request whose url is neither [/health] nor [/] is
    answered with status 302 and a [Location] that is the same url on
    [http://localhost:18789], and with an empty body; a request for [/] is
    answered as one for [/health] is. *)
Theorem redirect_to_gateway (req : request) (s : state) :
  url req <> lit "/health" -> url req <> lit "/" ->
  server req s =
    Response 302 [(lit "Location", lit "http://localhost:18789" ++ url req)] []
  /\ server (Request (method req) (lit "/")) s =
     server (Request (method req) (lit "/health")) s.
Proof.
  intros H1 H2. split.
  - apply other_paths_redirect; assumption.
  - apply root_like_health.
Qed.

Lemma redirect_to_gateway_witness :
  server (Request (lit "GET") (lit "/chat?session=main")) (initial ∅) =
    Response 302
      [(lit "Location", lit "http://localhost:18789/chat?session=main")] []
  /\ server (Request (lit "GET") (lit "/")) (initial ∅) =
     server (Request (lit "GET") (lit "/health")) (initial ∅).
Proof.
  apply (redirect_to_gateway
           (Request (lit "GET") (lit "/chat?session=main")) (initial ∅));
    discriminate.
Defined.

End SidecarServer.

(** ** The sidecar's supervision of the gateway *)

Section SidecarProcess.

Import Sidecar.

(** *** What each handler does to each field *)

Lemma startOpenClaw_timers (s : state) :
  timers (startOpenClaw s) = timers s ++ [Timer (now s + 3000) CbMarkHealthy].
Proof. reflexivity. Qed.

Lemma startOpenClaw_spawns (s : state) :
  spawns (startOpenClaw s) = now s :: spawns s.
Proof. reflexivity. Qed.

Lemma startOpenClaw_now (s : state) : now (startOpenClaw s) = now s.
Proof. reflexivity. Qed.

Lemma startOpenClaw_healthy (s : state) :
  openclawHealthy (startOpenClaw s) = openclawHealthy s.
Proof. reflexivity. Qed.

Lemma startOpenClaw_spawned (s : state) :
  exists c, openclawProcess (startOpenClaw s) = Some c /\ command c = lit "npx".
Proof. eexists. split; reflexivity. Qed.

Lemma on_close_timers (code : option Z) (s : state) :
  timers (on_close code s) = timers s ++ [Timer (now s + 5000) CbStartOpenClaw].
Proof. reflexivity. Qed.

Lemma on_stdout_data_healthy (data : jsstring) (s : state) :
  openclawHealthy (on_stdout_data data s) =
  includes data (lit "listening") || includes data (lit "started")
  || openclawHealthy s.
Proof.
  unfold on_stdout_data.
  destruct (includes data (lit "listening") || includes data (lit "started"));
    reflexivity.
Qed.

(** C4. Once the gateway is spawned, a chunk of its stdout that has
    [listening] or [started] somewhere inside marks the sidecar healthy,
    whatever the state was. *)
Theorem stdout_marker_marks_healthy
    (s : state) (marker before after : jsstring) :
  marker = lit "listening" \/ marker = lit "started" ->
  openclawHealthy
    (handle (StdoutData (before ++ marker ++ after)) (startOpenClaw s)) = true
  /\ openclawHealthy (on_stdout_data (before ++ marker ++ after) s) = true.
Proof.
  intros H.
  assert (Hinc : includes (before ++ marker ++ after) marker = true)
    by (apply includes_spec; eauto).
  simpl handle. rewrite !on_stdout_data_healthy.
  destruct H as [-> | ->]; rewrite Hinc; simpl;
    rewrite ?orb_true_r; split; reflexivity.
Qed.

Lemma stdout_marker_marks_healthy_witness :
  openclawHealthy
    (handle (StdoutData (lit "[gateway] listening on ws://0.0.0.0:18789"))
       (startOpenClaw (initial ∅))) = true
  /\ openclawHealthy
       (on_stdout_data (lit "[gateway] listening on ws://0.0.0.0:18789")
          (initial ∅)) = true.
Proof.
  apply (stdout_marker_marks_healthy (initial ∅) (lit "listening")
           (lit "[gateway] ") (lit " on ws://0.0.0.0:18789")).
  left. reflexivity.
Defined.

(** *** A run of the sidecar *)

Example boot_with_token :
  args <$> openclawProcess
             (boot {[lit "OPENCLAW_GATEWAY_TOKEN" := lit "s3cret"]}) =
  Some [lit "openclaw"; lit "gateway"; lit "--port"; lit "18789";
        lit "--bind"; lit "lan"; lit "--allow-unconfigured";
        lit "--token"; lit "s3cret"].
Proof. vm_compute. reflexivity. Qed.

Example boot_without_token :
  args <$> openclawProcess (boot ∅) =
  Some [lit "openclaw"; lit "gateway"; lit "--port"; lit "18789";
        lit "--bind"; lit "lan"; lit "--allow-unconfigured"].
Proof. vm_compute. reflexivity. Qed.

Example boot_child_env :
  (env <$> openclawProcess (boot {[lit "OPENAI_API_KEY" := lit "sk-1"]}))
    ≫= (fun e => e !! lit "OPENAI_API_KEY") = Some (lit "sk-1")
  /\ (env <$> openclawProcess (boot {[lit "OPENAI_API_KEY" := lit "sk-1"]}))
       ≫= (fun e => e !! lit "NODE_OPTIONS") =
     Some (lit "--max-old-space-size=2048")
  /\ (env <$> openclawProcess (boot {[lit "OPENAI_API_KEY" := lit "sk-1"]}))
       ≫= (fun e => e !! lit "GOOGLE_API_KEY") = None.
Proof. vm_compute. repeat split. Qed.

(** The gateway reports at 1.2 s, exits at 10 s, and is back at 15 s. *)
Example a_restart :
  let s1 := run [Elapse 1200; StdoutData (lit "gateway listening")] (boot ∅) in
  let s2 := run [Elapse 8800; Close (Some 1%Z)] s1 in
  let s3 := run [Elapse 4999] s2 in
  let s4 := run [Elapse 1] s3 in
  (openclawHealthy s1, spawns s1) = (true, [0])
  /\ (openclawHealthy s2, timers s2) = (false, [Timer 15000 CbStartOpenClaw])
  /\ (openclawHealthy s3, spawns s3) = (false, [0])
  /\ (openclawHealthy s4, spawns s4, timers s4, now s4) =
     (false, [15000; 0], [Timer 18000 CbMarkHealthy], 15000).
Proof. vm_compute. repeat split. Qed.

(** *** The timer queue *)

Lemma next_timer_In (q : list timer) (tm : timer) :
  next_timer q = Some tm -> In tm q.
Proof.
  revert tm. induction q as [|x q IH]; simpl; intros tm H; [discriminate|].
  destruct (next_timer q) as [m|].
  - destruct (due x <=? due m); injection H as <-; auto.
  - injection H as <-. auto.
Qed.

Lemma next_timer_min (q : list timer) (tm x : timer) :
  next_timer q = Some tm -> In x q -> due tm <= due x.
Proof.
  revert tm. induction q as [|y q IH]; simpl; intros tm H Hx; [contradiction|].
  destruct (next_timer q) as [m|] eqn:E.
  - destruct (due y <=? due m) eqn:L; injection H as <-.
    + apply N.leb_le in L. destruct Hx as [<- | Hx]; [lia|].
      specialize (IH m eq_refl Hx). lia.
    + apply N.leb_gt in L. destruct Hx as [<- | Hx]; [lia|].
      exact (IH m eq_refl Hx).
  - injection H as <-. destruct Hx as [<- | Hx]; [lia|].
    destruct q; [contradiction|]. simpl in E.
    destruct (next_timer q); [destruct (_ <=? _)|]; discriminate.
Qed.

Lemma next_timer_nonempty (q : list timer) (x : timer) :
  In x q -> exists tm, next_timer q = Some tm.
Proof.
  destruct q as [|y q]; [contradiction|]. intros _. simpl.
  destruct (next_timer q) as [m|]; [destruct (due y <=? due m)|]; eauto.
Qed.

Lemma queue_fuel_app (q1 q2 : list timer) :
  queue_fuel (q1 ++ q2) = (queue_fuel q1 + queue_fuel q2)%nat.
Proof. induction q1 as [|x q1 IH]; simpl; [reflexivity|]. rewrite IH. lia. Qed.

Lemma queue_fuel_remove (tm : timer) (q : list timer) :
  In tm q -> queue_fuel q = (fuel_of tm + queue_fuel (remove_timer tm q))%nat.
Proof.
  induction q as [|x q IH]; simpl; [contradiction|]. intros H.
  destruct (decide (x = tm)) as [-> | Hne]; [reflexivity|].
  destruct H as [-> | H]; [congruence|]. simpl. rewrite (IH H).
  unfold fuel_of. lia.
Qed.

Lemma remove_timer_In (tm x : timer) (q : list timer) :
  In x (remove_timer tm q) -> In x q.
Proof.
  induction q as [|y q IH]; simpl; [tauto|].
  destruct (decide (y = tm)); simpl; tauto.
Qed.

Lemma remove_timer_other (tm x : timer) (q : list timer) :
  In x q -> x <> tm -> In x (remove_timer tm q).
Proof.
  induction q as [|y q IH]; simpl; [tauto|]. intros [-> | H] Hne.
  - destruct (decide (x = tm)); [contradiction | left; reflexivity].
  - destruct (decide (y = tm)); [assumption | right; auto].
Qed.

Lemma restarts_app (q1 q2 : list timer) :
  restarts (q1 ++ q2) = restarts q1 ++ restarts q2.
Proof.
  induction q1 as [|x q1 IH]; simpl; [reflexivity|].
  destruct (cb x); simpl; rewrite IH; reflexivity.
Qed.

Lemma restarts_In (q : list timer) (tm : timer) :
  In tm q -> cb tm = CbStartOpenClaw -> In (due tm) (restarts q).
Proof.
  induction q as [|x q IH]; simpl; [tauto|]. intros [-> | H] Hcb.
  - rewrite Hcb. left. reflexivity.
  - destruct (cb x); [right|]; auto.
Qed.

Lemma restarts_remove_health (tm : timer) (q : list timer) :
  cb tm = CbMarkHealthy -> restarts (remove_timer tm q) = restarts q.
Proof.
  intros Hcb. induction q as [|x q IH]; simpl; [reflexivity|].
  destruct (decide (x = tm)) as [-> | Hne].
  - rewrite Hcb. reflexivity.
  - simpl. rewrite IH. reflexivity.
Qed.

Lemma restarts_remove_start (tm : timer) (q : list timer) (T : N) :
  In tm q -> cb tm = CbStartOpenClaw -> restarts q = [T] ->
  due tm = T /\ restarts (remove_timer tm q) = [].
Proof.
  intros Hin Hcb. induction q as [|x q IH]; simpl; [contradiction|].
  destruct (decide (x = tm)) as [-> | Hne].
  - rewrite Hcb. intros [= -> ->]. split; reflexivity.
  - destruct Hin as [-> | Hin]; [congruence|]. simpl.
    destruct (cb x) eqn:Hx.
    + intros [= -> Hq]. apply (restarts_In _ _ Hin) in Hcb.
      rewrite Hq in Hcb. contradiction.
    + auto.
Qed.

(** *** Running the timers that are due *)

Lemma run_timers_now (fuel : nat) (t : N) (s : state) :
  now (run_timers fuel t s) = t.
Proof.
  revert s. induction fuel as [|fuel IH]; intros s; simpl; [reflexivity|].
  destruct (next_timer (timers s)) as [tm|]; [|reflexivity].
  destruct (due tm <=? t); [apply IH | reflexivity].
Qed.

(** No timer callback clears the flag. *)
Lemma run_timers_keeps_healthy (fuel : nat) (t : N) (s : state) :
  openclawHealthy s = true -> openclawHealthy (run_timers fuel t s) = true.
Proof.
  revert s. induction fuel as [|fuel IH]; intros s H; simpl; [exact H|].
  destruct (next_timer (timers s)) as [tm|]; [|exact H].
  destruct (due tm <=? t); [|exact H].
  apply IH. destruct (cb tm); [exact H | reflexivity].
Qed.

(** With no restart due, no child is spawned. *)
Lemma run_timers_quiet (fuel : nat) (t : N) (s : state) :
  (forall T, In T (restarts (timers s)) -> t < T) ->
  spawns (run_timers fuel t s) = spawns s /\
  restarts (timers (run_timers fuel t s)) = restarts (timers s).
Proof.
  revert s. induction fuel as [|fuel IH]; intros s H; simpl; [split; reflexivity|].
  destruct (next_timer (timers s)) as [tm|] eqn:E; [|split; reflexivity].
  destruct (due tm <=? t) eqn:L; [|split; reflexivity].
  apply N.leb_le in L. pose proof (next_timer_In _ _ E) as Hin.
  destruct (cb tm) eqn:Hcb.
  - specialize (H _ (restarts_In _ _ Hin Hcb)). lia.
  - simpl fire.
    match goal with |- context [run_timers fuel t ?s'] =>
      destruct (IH s') as [IH1 IH2] end.
    + simpl. rewrite (restarts_remove_health _ _ Hcb). exact H.
    + rewrite IH1, IH2. simpl. rewrite (restarts_remove_health _ _ Hcb).
      split; reflexivity.
Qed.

(** With one restart pending and due, exactly one child is spawned, at the
    time the restart was due. *)
Lemma run_timers_restart (fuel : nat) (t T : N) (s : state) :
  restarts (timers s) = [T] -> now s <= T -> T <= t ->
  (queue_fuel (timers s) <= fuel)%nat ->
  spawns (run_timers fuel t s) = T :: spawns s /\
  restarts (timers (run_timers fuel t s)) = [].
Proof.
  revert s. induction fuel as [|fuel IH]; intros s HR Hnow HT Hfuel.
  - destruct (timers s) as [|x q]; [discriminate|].
    simpl in Hfuel. unfold fuel_of in Hfuel. destruct (cb x); lia.
  - simpl.
    assert (Hex : exists x, In x (timers s) /\ cb x = CbStartOpenClaw /\ due x = T).
    { clear -HR. induction (timers s) as [|x q IHq]; [discriminate|].
      simpl in HR. destruct (cb x) eqn:Hx.
      - injection HR as <- _. exists x. simpl. auto.
      - destruct (IHq HR) as (y & ? & ? & ?). exists y. simpl. auto. }
    destruct Hex as (x & Hx & Hxcb & HxT).
    destruct (next_timer_nonempty _ _ Hx) as [tm E]. rewrite E.
    pose proof (next_timer_In _ _ E) as Hin.
    pose proof (next_timer_min _ _ _ E Hx) as Hmin.
    assert (L : due tm <= t) by lia.
    apply N.leb_le in L. rewrite L. apply N.leb_le in L.
    pose proof (queue_fuel_remove _ _ Hin) as Hq. unfold fuel_of in Hq.
    destruct (cb tm) eqn:Hcb.
    + destruct (restarts_remove_start _ _ _ Hin Hcb HR) as [Hdue Hnone].
      simpl fire.
      match goal with |- context [run_timers fuel t ?s'] =>
        destruct (run_timers_quiet fuel t s') as [Q1 Q2] end.
      * rewrite startOpenClaw_timers, restarts_app. simpl.
        rewrite Hnone. simpl. tauto.
      * rewrite Q1, Q2, startOpenClaw_spawns, startOpenClaw_timers, restarts_app.
        simpl. rewrite Hnone, Hdue. split; [|reflexivity].
        f_equal. lia.
    + simpl fire.
      match goal with |- context [run_timers fuel t ?s'] =>
        destruct (IH s') as [IH1 IH2] end.
      * simpl. rewrite (restarts_remove_health _ _ Hcb). exact HR.
      * simpl. lia.
      * exact HT.
      * simpl. lia.
      * rewrite IH1, IH2. split; reflexivity.
Qed.

(** A health timer that is due runs, and the flag stays set afterwards. *)
Lemma run_timers_health_due (fuel : nat) (t T : N) (s : state) :
  In (Timer T CbMarkHealthy) (timers s) -> T <= t ->
  (queue_fuel (timers s) <= fuel)%nat ->
  openclawHealthy (run_timers fuel t s) = true.
Proof.
  revert s. induction fuel as [|fuel IH]; intros s Hin HT Hfuel.
  - rewrite (queue_fuel_remove _ _ Hin) in Hfuel. unfold fuel_of in Hfuel.
    simpl in Hfuel. lia.
  - simpl.
    destruct (next_timer_nonempty _ _ Hin) as [tm E]. rewrite E.
    pose proof (next_timer_In _ _ E) as Htm.
    pose proof (next_timer_min _ _ _ E Hin) as Hmin. simpl in Hmin.
    assert (L : due tm <= t) by lia.
    apply N.leb_le in L. rewrite L.
    pose proof (queue_fuel_remove _ _ Htm) as Hq. unfold fuel_of in Hq.
    destruct (decide (Timer T CbMarkHealthy = tm)) as [<- | Hne].
    + apply run_timers_keeps_healthy. reflexivity.
    + pose proof (remove_timer_other _ _ _ Hin Hne) as Hstill.
      destruct (cb tm) eqn:Hcb.
      * apply IH; [|exact HT|].
        -- simpl fire. rewrite startOpenClaw_timers. simpl.
           apply in_or_app. left. exact Hstill.
        -- simpl fire. rewrite startOpenClaw_timers, queue_fuel_app. simpl.
           unfold fuel_of. simpl. lia.
      * apply run_timers_keeps_healthy. reflexivity.
Qed.

(** With the fuel [elapse] gives it, [run_timers] runs every timer that is
    due: none of those left is due at or before [t]. *)
Lemma run_timers_complete (fuel : nat) (t : N) (s : state) (x : timer) :
  (queue_fuel (timers s) <= fuel)%nat ->
  In x (timers (run_timers fuel t s)) -> t < due x.
Proof.
  revert s. induction fuel as [|fuel IH]; intros s Hfuel.
  - destruct (timers s) as [|y q] eqn:Hq.
    + simpl. rewrite Hq. contradiction.
    + simpl in Hfuel. unfold fuel_of in Hfuel. destruct (cb y); lia.
  - simpl. destruct (next_timer (timers s)) as [tm|] eqn:E.
    + pose proof (next_timer_In _ _ E) as Htm.
      pose proof (queue_fuel_remove _ _ Htm) as Hq. unfold fuel_of in Hq.
      destruct (due tm <=? t) eqn:L.
      * apply IH. destruct (cb tm) eqn:Hcb; simpl fire.
        -- rewrite startOpenClaw_timers, queue_fuel_app. simpl.
           unfold fuel_of. simpl. lia.
        -- simpl. lia.
      * apply N.leb_gt in L. simpl. intros Hx.
        pose proof (next_timer_min _ _ _ E Hx). lia.
    + simpl. intros Hx. destruct (next_timer_nonempty _ _ Hx). congruence.
Qed.

(** *** Time passing *)

Lemma elapse_now (ms : N) (s : state) : now (elapse ms s) = now s + ms.
Proof. apply run_timers_now. Qed.

Lemma elapse_complete (ms : N) (s : state) (x : timer) :
  In x (timers (elapse ms s)) -> now (elapse ms s) < due x.
Proof.
  rewrite elapse_now. apply run_timers_complete. reflexivity.
Qed.

Lemma elapse_quiet (ms : N) (s : state) :
  (forall T, In T (restarts (timers s)) -> now s + ms < T) ->
  spawns (elapse ms s) = spawns s /\
  restarts (timers (elapse ms s)) = restarts (timers s).
Proof. apply run_timers_quiet. Qed.

Lemma close_then_wait (code : option Z) (d : N) (s : state) :
  restarts (timers s) = [] -> d < 5000 ->
  spawns (elapse d (on_close code s)) = spawns s.
Proof.
  intros HR Hd.
  destruct (elapse_quiet d (on_close code s)) as [H _]; [|exact H].
  rewrite on_close_timers, restarts_app, HR. simpl.
  intros T [<- | []]. lia.
Qed.

Lemma close_then_restart (code : option Z) (s : state) :
  restarts (timers s) = [] ->
  spawns (elapse 5000 (on_close code s)) = (now s + 5000) :: spawns s /\
  restarts (timers (elapse 5000 (on_close code s))) = [].
Proof.
  intros HR. unfold elapse.
  apply (run_timers_restart _ _ (now s + 5000) (on_close code s)).
  - rewrite on_close_timers, restarts_app, HR. reflexivity.
  - simpl. lia.
  - simpl. lia.
  - reflexivity.
Qed.






(** *** The startup delay *)

Lemma outputs_frame (outs : list (stream * jsstring)) (s : state) :
  timers (run (map output outs) s) = timers s /\
  now (run (map output outs) s) = now s.
Proof.
  revert s. induction outs as [|[o d] outs IH]; intros s; [split; reflexivity|].
  simpl. destruct (IH (handle (output (o, d)) s)) as [-> ->].
  destruct o; simpl; unfold on_stdout_data;
    try destruct (includes d (lit "listening") || includes d (lit "started"));
    split; reflexivity.
Qed.

Lemma healthy_after_delay (outs : list (stream * jsstring)) (s : state) :
  openclawHealthy (elapse 3000 (run (map output outs) (startOpenClaw s))) = true.
Proof.
  destruct (outputs_frame outs (startOpenClaw s)) as [Ht Hn].
  unfold elapse.
  apply run_timers_health_due with (T := now s + 3000).
  - rewrite Ht, startOpenClaw_timers. apply in_or_app. right. left. reflexivity.
  - rewrite Hn, startOpenClaw_now. lia.
  - reflexivity.
Qed.

(** C8. Three seconds after any call of [startOpenClaw] the health flag is
    set, whatever the state was and whatever the child wrote in between, in
    particular when it wrote nothing; [/health] then answers 200. So it does
    three seconds after boot with no output at all, and even when the child
    has exited in the meantime. *)
Theorem healthy_without_marker
    (s : state) (outs : list (stream * jsstring)) (m : jsstring)
    (e : gmap jsstring jsstring) :
  openclawHealthy (elapse 3000 (startOpenClaw s)) = true
  /\ openclawHealthy
       (elapse 3000 (run (map output outs) (startOpenClaw s))) = true
  /\ statusCode
       (server (Request m (lit "/health"))
          (elapse 3000 (run (map output outs) (startOpenClaw s)))) = 200%Z
  /\ statusCode
       (server (Request m (lit "/health"))
          (run [Elapse 3000] (boot e))) = 200%Z
  /\ statusCode
       (server (Request m (lit "/health"))
          (run [Elapse 1000; Close (Some 1%Z); Elapse 2000] (boot e))) = 200%Z.
Proof.
  pose proof (healthy_after_delay [] s) as H0.
  pose proof (healthy_after_delay outs s) as H1.
  split; [exact H0|]. split; [exact H1|]. split; [|split].
  - unfold server. rewrite H1. reflexivity.
  - reflexivity.
  - reflexivity.
Qed.

End SidecarProcess.

(** ** The desktop store *)

Section StoreFacts.

Import Store.

(** C10. Each setter of the store replaces its own field by the value it is
    given and leaves the other four fields as they were. *)
Theorem setters_frame (st : AppState)
    (sc : AppScreen) (gw : GatewayStatus) (rt : RuntimeStatus)
    (configured : bool) (err : option jsstring) :
  setScreen sc st =
    {| screen := sc; gatewayStatus := gatewayStatus st;
       runtimeStatus := runtimeStatus st;
       apiKeyConfigured := apiKeyConfigured st; error := error st |}
  /\ setGatewayStatus gw st =
    {| screen := screen st; gatewayStatus := gw;
       runtimeStatus := runtimeStatus st;
       apiKeyConfigured := apiKeyConfigured st; error := error st |}
  /\ setRuntimeStatus rt st =
    {| screen := screen st; gatewayStatus := gatewayStatus st;
       runtimeStatus := rt;
       apiKeyConfigured := apiKeyConfigured st; error := error st |}
  /\ setApiKeyConfigured configured st =
    {| screen := screen st; gatewayStatus := gatewayStatus st;
       runtimeStatus := runtimeStatus st;
       apiKeyConfigured := configured; error := error st |}
  /\ setError err st =
    {| screen := screen st; gatewayStatus := gatewayStatus st;
       runtimeStatus := runtimeStatus st;
       apiKeyConfigured := apiKeyConfigured st; error := err |}.
Proof. repeat split. Qed.

(** A [set] with no field is the identity, and a later [set] wins field by
    field. *)
Lemma set_nothing (st : AppState) : set nothing st = st.
Proof. destruct st. reflexivity. Qed.

End StoreFacts.

(** ** The save and install handlers *)

Section SettingsFacts.

Import Store Settings.

Variable host : tauri.

Lemma handleSave_empty_key (w : world) :
  truthy (trim (apiKey w)) = false -> handleSave host w = (Returned tt, w).
Proof. intros H. unfold handleSave. rewrite H. reflexivity. Qed.

Lemma handleSave_not_installed (w : world) :
  truthy (trim (apiKey w)) = true ->
  is_installed (runtimeStatus (store w)) = false ->
  handleSave host w =
  (Returned tt,
   World
     (setError (Some (lit "Please wait for the runtime to finish installing."))
        (store w))
     (apiKey w) (saving w) (runtimeDetails w) (calls w)).
Proof. intros H1 H2. unfold handleSave. rewrite H1, H2. reflexivity. Qed.

(** The world after a save that got past the two guards, by how the two
    bridge calls end. *)
Lemma handleSave_ready (w : world) :
  truthy (trim (apiKey w)) = true ->
  is_installed (runtimeStatus (store w)) = true ->
  handleSave host w =
  (Returned tt,
   match setApiKey_result host (trim (apiKey w)) with
   | Thrown err =>
       World
         (setGatewayStatus (GatewayError (message_of err))
            (setError (Some (message_of err)) (setError None (store w))))
         (apiKey w) false (runtimeDetails w)
         (calls w ++ [CallSetApiKey (trim (apiKey w))])
   | Returned _ =>
       match startGateway_result host with
       | Thrown err =>
           World
             (setGatewayStatus (GatewayError (message_of err))
                (setError (Some (message_of err))
                   (setGatewayStatus GatewayStarting
                      (setApiKeyConfigured true (setError None (store w))))))
             (apiKey w) false (runtimeDetails w)
             ((calls w ++ [CallSetApiKey (trim (apiKey w))])
                ++ [CallStartGateway])
       | Returned info =>
           World
             (setScreen chat
                (setGatewayStatus (GatewayRunning info)
                   (setGatewayStatus GatewayStarting
                      (setApiKeyConfigured true (setError None (store w))))))
             (apiKey w) false (runtimeDetails w)
             ((calls w ++ [CallSetApiKey (trim (apiKey w))])
                ++ [CallStartGateway])
       end
   end).
Proof.
  intros H1 H2. unfold handleSave. rewrite H1, H2. simpl negb. cbv iota.
  unfold try_finally, try_catch, bind, tauri_setApiKey, tauri_startGateway,
    call, update_store, setSaving. simpl.
  destruct (setApiKey_result host (trim (apiKey w))) as [[]|err]; simpl.
  - destruct (startGateway_result host) as [info|err]; reflexivity.
  - reflexivity.
Qed.



(** C9. With a key that is blank after trimming, [handleSave] returns and
    changes nothing. With a key that is not blank and a runtime that is not
    installed, it sets the error message and changes nothing else. In both
    cases no bridge call is made and the gateway status and the screen are
    the ones they were; with both conditions met, [tauri.setApiKey] is
    called with the trimmed key. *)
Theorem handleSave_guards (w : world) :
  (truthy (trim (apiKey w)) = false -> handleSave host w = (Returned tt, w))
  /\ (truthy (trim (apiKey w)) = true ->
      is_installed (runtimeStatus (store w)) = false ->
      handleSave host w =
      (Returned tt,
       World
         (setError
            (Some (lit "Please wait for the runtime to finish installing."))
            (store w))
         (apiKey w) (saving w) (runtimeDetails w) (calls w)))
  /\ (truthy (trim (apiKey w)) = false
      \/ is_installed (runtimeStatus (store w)) = false ->
      let w' := snd (handleSave host w) in
      calls w' = calls w
      /\ gatewayStatus (store w') = gatewayStatus (store w)
      /\ screen (store w') = screen (store w)
      /\ runtimeStatus (store w') = runtimeStatus (store w)
      /\ apiKeyConfigured (store w') = apiKeyConfigured (store w))
  /\ (truthy (trim (apiKey w)) = true ->
      is_installed (runtimeStatus (store w)) = true ->
      exists rest,
        calls (snd (handleSave host w)) =
        calls w ++ CallSetApiKey (trim (apiKey w)) :: rest).
Proof.
  split; [apply handleSave_empty_key|].
  split; [apply handleSave_not_installed|].
  split.
  - intros H w'. subst w'.
    destruct (truthy (trim (apiKey w))) eqn:Hkey.
    + destruct H as [H|H]; [discriminate|].
      rewrite (handleSave_not_installed w Hkey H). repeat split.
    + rewrite (handleSave_empty_key w Hkey). repeat split.
  - intros Hkey Hrt. rewrite (handleSave_ready w Hkey Hrt). simpl.
    destruct (setApiKey_result host (trim (apiKey w))) as [[]|err].
    + destruct (startGateway_result host); simpl; rewrite <- app_assoc; eauto.
    + simpl. eauto.
Qed.

(** Saving never touches the runtime status. *)
Lemma handleSave_runtimeStatus (w : world) :
  runtimeStatus (store (snd (handleSave host w))) = runtimeStatus (store w).
Proof.
  destruct (truthy (trim (apiKey w))) eqn:Hkey.
  - destruct (is_installed (runtimeStatus (store w))) eqn:Hrt.
    + rewrite (handleSave_ready w Hkey Hrt). simpl.
      destruct (setApiKey_result host (trim (apiKey w))) as [[]|err];
        [destruct (startGateway_result host)|]; reflexivity.
    + rewrite (handleSave_not_installed w Hkey Hrt). reflexivity.
  - rewrite (handleSave_empty_key w Hkey). reflexivity.
Qed.

(** After the install handler the runtime status is [downloading] at 0, or
    the error the bridge threw. *)
Lemma handleInstallRuntime_runtimeStatus (w : world) :
  runtimeStatus (store (snd (handleInstallRuntime host w))) =
  match installRuntime_result host with
  | Returned _ => RuntimeDownloading 0
  | Thrown err => RuntimeError (message_of err)
  end.
Proof.
  unfold handleInstallRuntime, bind, try_catch, tauri_installRuntime, call,
    update_store. simpl.
  destruct (installRuntime_result host); reflexivity.
Qed.

End SettingsFacts.

Section SettingsExamples.

Import Store Settings.


Lemma handleSave_guards_witness :
  handleSave host_ok (ready_world "   ") = (Returned tt, ready_world "   ")
  /\ handleSave host_ok (World useAppStore (lit "sk-ant-api03-abc") false None []) =
     (Returned tt,
      World
        (setError
           (Some (lit "Please wait for the runtime to finish installing."))
           useAppStore)
        (lit "sk-ant-api03-abc") false None [])
  /\ calls (snd (handleSave host_ok (ready_world "sk-ant-api03-abc"))) =
     [CallSetApiKey (lit "sk-ant-api03-abc"); CallStartGateway].
Proof.
  split; [|split].
  - destruct (handleSave_guards host_ok (ready_world "   ")) as (H & _).
    exact (H eq_refl).
  - destruct (handleSave_guards host_ok
                (World useAppStore (lit "sk-ant-api03-abc") false None []))
      as (_ & H & _).
    exact (H eq_refl eq_refl).
  - reflexivity.
Defined.

End SettingsExamples.

(** ** What the two screens show *)

Section Rendering.

Import Store Settings React.

Variable Number_toString : Q -> jsstring.

Lemma texts_child (tag : string) (props : list (string * prop))
    (children : list node) (c : node) (t : jsstring) :
  In c children -> In t (texts c) -> In t (texts (Element tag props children)).
Proof.
  intros Hc Ht. simpl.
  induction children as [|x children IH]; [contradiction|].
  apply in_or_app. destruct Hc as [-> | Hc]; [left; exact Ht | right; auto].
Qed.

Lemma runtime_box_error (message : jsstring) :
  In message (texts (runtime_box Number_toString (RuntimeError message))).
Proof. simpl. tauto. Qed.

Lemma Settings_shows_runtime_error (w : world) (message : jsstring) :
  runtimeStatus (store w) = RuntimeError message ->
  In message (texts (Settings.Settings Number_toString w)).
Proof.
  intros H. unfold Settings.Settings, el.
  eapply texts_child; [left; reflexivity|].
  eapply texts_child; [right; left; reflexivity|].
  rewrite H. simpl negb. cbv iota. apply runtime_box_error.
Qed.

Lemma Loading_shows_runtime_error (st : AppState) (message : jsstring) :
  runtimeStatus st = RuntimeError message ->
  In message (texts (Loading.Loading Number_toString st)).
Proof.
  intros H. unfold Loading.Loading, el. rewrite H.
  eapply texts_child; [left; reflexivity|].
  eapply texts_child; [right; right; left; reflexivity|].
  simpl. destruct message; simpl; tauto.
Qed.

(** The paragraph either screen puts the message in, when there is one. *)
Lemma Loading_error_paragraph (message : jsstring) :
  message <> [] ->
  Loading.Loading Number_toString
    {| screen := loading; gatewayStatus := GatewayStopped;
       runtimeStatus := RuntimeError message;
       apiKeyConfigured := false; error := None |} =
  el "div" "flex flex-col items-center justify-center h-screen bg-[#0a0a0a] text-[#fafafa] antialiased"
    [el "div" "flex flex-col items-center space-y-4 max-w-md px-8"
       [el "AlertCircle" "w-6 h-6 text-red-400" [];
        el "p" "text-[15px] text-white/80 font-medium" [Text (lit "Setup failed")];
        el "p" "text-[13px] text-white/40 text-center" [Text message];
        Nothing;
        Nothing]].
Proof. intros H. destruct message; [congruence | reflexivity]. Qed.

(** C6. When the runtime status is the error variant, the loading screen and
    the settings screen each show the message as the very string the status
    holds: it is among the text children of either screen, the settings
    screen has it as the only child of the second paragraph of the runtime
    box, and the loading screen as the only child of the paragraph under
    the headline (an empty message is the empty string child there). *)
Theorem runtime_error_shown (w : world) (message : jsstring) :
  runtimeStatus (store w) = RuntimeError message ->
  In message (texts (Loading.Loading Number_toString (store w)))
  /\ In message (texts (Settings.Settings Number_toString w))
  /\ at_path [0; 2]%nat (Loading.Loading Number_toString (store w)) =
       Some (match message with
             | [] => Text []
             | _ => el "p" "text-[13px] text-white/40 text-center" [Text message]
             end)
  /\ at_path [0; 1; 0; 1; 1]%nat (Settings.Settings Number_toString w) =
       Some (el "p" "text-[13px] text-white/40 mb-3" [Text message]).
Proof.
  intros H. split; [|split; [|split]].
  - apply Loading_shows_runtime_error. exact H.
  - apply Settings_shows_runtime_error. exact H.
  - unfold Loading.Loading. rewrite H. destruct message; reflexivity.
  - unfold Settings.Settings. rewrite H. reflexivity.
Qed.

End Rendering.

Lemma runtime_error_shown_witness :
  let message := lit "Failed to download Node.js: connection reset" in
  let w :=
    Settings.World
      (Store.setRuntimeStatus (Store.RuntimeError message) Store.useAppStore)
      [] false None [] in
  In message (React.texts (Loading.Loading (fun _ => []) (Settings.store w)))
  /\ In message (React.texts (Settings.Settings (fun _ => []) w))
  /\ React.at_path [0; 2]%nat (Loading.Loading (fun _ => []) (Settings.store w)) =
       Some (React.el "p" "text-[13px] text-white/40 text-center"
               [React.Text message])
  /\ React.at_path [0; 1; 0; 1; 1]%nat (Settings.Settings (fun _ => []) w) =
       Some (React.el "p" "text-[13px] text-white/40 mb-3" [React.Text message]).
Proof.
  intros message w.
  exact (runtime_error_shown (fun _ => []) w message eq_refl).
Defined.

(** ** The download progress *)

Section Progress.

Import Store Settings App.

Lemma step_keeps_progress_in_range (w w' : world) :
  progress_in_range w -> step w w' -> progress_in_range w'.
Proof.
  intros Hw Hstep. destruct Hstep as [host w | host w | key w | d w | r w Hr].
  - unfold progress_in_range. rewrite handleInstallRuntime_runtimeStatus.
    destruct (installRuntime_result host); simpl; [|exact I].
    split; discriminate.
  - unfold progress_in_range. rewrite handleSave_runtimeStatus. exact Hw.
  - exact Hw.
  - exact Hw.
  - unfold progress_in_range. simpl. destruct r; simpl; auto.
Qed.

(** C7. In every state the application reaches from its initial state by
    the install and save handlers, by typing, by polling and by the host's
    reports, a [downloading] runtime status has a progress from 0 to 100. *)
Theorem downloading_progress_in_range (w : world) (p : Q) :
  reachable w ->
  runtimeStatus (store w) = RuntimeDownloading p ->
  (0 <= p)%Q /\ (p <= 100)%Q.
Proof.
  intros Hreach Hrt.
  assert (Hinv : progress_in_range w).
  { clear Hrt p. induction Hreach as [|w w' _ IH Hstep].
    - exact I.
    - exact (step_keeps_progress_in_range w w' IH Hstep). }
  unfold progress_in_range in Hinv. rewrite Hrt in Hinv. exact Hinv.
Qed.

Lemma downloading_progress_in_range_witness :
  let w := host_report (RuntimeDownloading (85 # 2))
             (snd (handleInstallRuntime host_ok initial)) in
  reachable w /\ (0 <= 85 # 2)%Q /\ (85 # 2 <= 100)%Q.
Proof.
  intros w.
  assert (Hr : reachable w).
  { apply reachable_step with (w := snd (handleInstallRuntime host_ok initial)).
    - apply reachable_step with (w := initial).
      + apply reachable_initial.
      + apply step_install.
    - apply step_report. simpl. split; discriminate. }
  split; [exact Hr|].
  exact (downloading_progress_in_range w (85 # 2) Hr eq_refl).
Defined.

End Progress.

(** ** More on the sidecar's supervision *)

Section SupervisionFacts.

Import Sidecar Supervision.

(** What the child writes changes the console and, at most, the flag. *)
Lemma output_frame (x : stream * jsstring) (s : state) :
  timers (handle (output x) s) = timers s
  /\ now (handle (output x) s) = now s
  /\ spawns (handle (output x) s) = spawns s
  /\ openclawProcess (handle (output x) s) = openclawProcess s.
Proof.
  destruct x as [[] d]; simpl; unfold on_stdout_data;
    try destruct (includes d (lit "listening") || includes d (lit "started"));
    repeat split.
Qed.

Lemma output_healthy (x : stream * jsstring) (s : state) :
  openclawHealthy (handle (output x) s) =
  negb (unmarked x) || openclawHealthy s.
Proof.
  destruct x as [[] d]; [|reflexivity].
  change (handle (output (Stdout, d)) s) with (on_stdout_data d s).
  rewrite on_stdout_data_healthy. unfold unmarked, has_marker. cbn [fst snd].
  rewrite negb_involutive. reflexivity.
Qed.

(** A timer that is not yet due stays in the queue. *)
Lemma run_timers_keeps_pending (fuel : nat) (t : N) (s : state) (x : timer) :
  In x (timers s) -> t < due x -> In x (timers (run_timers fuel t s)).
Proof.
  revert s. induction fuel as [|fuel IH]; intros s Hx Hdue; simpl; [exact Hx|].
  destruct (next_timer (timers s)) as [tm|] eqn:E; [|exact Hx].
  destruct (due tm <=? t) eqn:L; [|exact Hx].
  apply N.leb_le in L. apply IH; [|exact Hdue].
  assert (Hne : x <> tm) by (intros ->; lia).
  pose proof (remove_timer_other _ _ _ Hx Hne) as Hstill.
  destruct (cb tm); simpl fire.
  - rewrite startOpenClaw_timers. apply in_or_app. left. exact Hstill.
  - exact Hstill.
Qed.

Lemma supervised_one_gateway (s : state) (n : nat) :
  supervised s n -> one_gateway s n.
Proof.
  induction 1 as [e | s n x _ IH | s n ms _ IH | s n code _ IH Halive].
  - left. split; reflexivity.
  - destruct (output_frame x s) as (Ht & Hn & Hs & _).
    unfold one_gateway. rewrite Ht, Hn, Hs. exact IH.
  - simpl handle. destruct IH as [[Hs HR] | [Hs (T & HR & Hlo & Hhi)]].
    + destruct (elapse_quiet ms s) as [Q1 Q2].
      { rewrite HR. intros T []. }
      left. rewrite Q1, Q2. auto.
    + destruct (N.ltb_spec (now s + ms) T) as [Hlt | Hge].
      * destruct (elapse_quiet ms s) as [Q1 Q2].
        { rewrite HR. intros T' [<- | []]. exact Hlt. }
        right. rewrite Q1, Q2, elapse_now. split; [exact Hs|].
        exists T. split; [exact HR|]. lia.
      * destruct (run_timers_restart (queue_fuel (timers s)) (now s + ms) T s)
          as [R1 R2]; [exact HR | lia | exact Hge | reflexivity |].
        left. unfold elapse. rewrite R1, R2. simpl. split; [|reflexivity].
        rewrite Hs. reflexivity.
  - destruct IH as [[Hs HR] | [Hs _]]; [|lia].
    right. simpl handle. rewrite on_close_timers, restarts_app, HR.
    split; [exact Hs|]. exists (now s + 5000). simpl. split; [reflexivity|]. lia.
Qed.

(** X1. From boot on, as long as a child exits only while one is running,
    the sidecar is in one of two situations: exactly one more child has been
    spawned than has exited and no restart is pending, or as many have been
    spawned as have exited and exactly one restart is pending, due within
    the next five seconds. So there are never two gateways at once and a
    gateway that is down is never left without a restart. *)
Theorem one_gateway_or_one_restart (s : state) (n : nat) :
  supervised s n ->
  (length (spawns s) = S n /\ restarts (timers s) = [])
  \/ (length (spawns s) = n
      /\ exists T, restarts (timers s) = [T] /\ now s < T <= now s + 5000).
Proof. apply supervised_one_gateway. Qed.

Lemma one_gateway_or_one_restart_witness :
  let s := handle (Close None) (handle (Elapse 60000) (boot ∅)) in
  supervised s 1
  /\ ((length (spawns s) = 2%nat /\ restarts (timers s) = [])
      \/ (length (spawns s) = 1%nat
          /\ exists T, restarts (timers s) = [T] /\ now s < T <= now s + 5000)).
Proof.
  intros s.
  assert (H : supervised s 1).
  { apply supervised_close; [|simpl; lia].
    apply supervised_elapse. apply supervised_boot. }
  split; [exact H|]. exact (one_gateway_or_one_restart s 1 H).
Defined.

(** X2. A child that exits less than three seconds after it was spawned
    leaves its health timer behind: three seconds after the spawn the flag
    is set and [/health] answers 200, although no child has been spawned
    since and the restart is still ahead, five seconds after the exit. *)
Theorem healthy_while_gateway_down
    (s : state) (d : N) (code : option Z) (m : jsstring) :
  restarts (timers s) = [] -> d < 3000 ->
  let s' := run [Elapse d; Close code; Elapse (3000 - d)] (startOpenClaw s) in
  openclawHealthy s' = true
  /\ statusCode (server (Request m (lit "/health")) s') = 200%Z
  /\ spawns s' = now s :: spawns s
  /\ restarts (timers s') = [now s + d + 5000]
  /\ now s' = now s + 3000.
Proof.
  intros HR Hd s'. subst s'. simpl run.
  set (s0 := startOpenClaw s).
  assert (HR0 : restarts (timers s0) = []).
  { unfold s0. rewrite startOpenClaw_timers, restarts_app, HR. reflexivity. }
  destruct (elapse_quiet d s0) as [Q1 Q2].
  { rewrite HR0. intros T []. }
  rewrite HR0 in Q2.
  set (s1 := elapse d s0) in *.
  assert (Hnow1 : now s1 = now s + d) by (unfold s1; rewrite elapse_now; reflexivity).
  assert (Hin : In (Timer (now s + 3000) CbMarkHealthy) (timers s1)).
  { unfold s1, elapse. apply run_timers_keeps_pending.
    - unfold s0. rewrite startOpenClaw_timers. apply in_or_app. right. left.
      reflexivity.
    - simpl. lia. }
  set (s2 := on_close code s1).
  assert (HR2 : restarts (timers s2) = [now s + d + 5000]).
  { unfold s2. rewrite on_close_timers, restarts_app, Q2, Hnow1. reflexivity. }
  destruct (elapse_quiet (3000 - d) s2) as [Q3 Q4].
  { rewrite HR2. intros T [<- | []]. unfold s2. simpl. rewrite Hnow1. lia. }
  assert (Hh : openclawHealthy (elapse (3000 - d) s2) = true).
  { unfold elapse. apply run_timers_health_due with (T := now s + 3000).
    - unfold s2. rewrite on_close_timers. apply in_or_app. left. exact Hin.
    - unfold s2. simpl. rewrite Hnow1. lia.
    - reflexivity. }
  split; [exact Hh|]. split; [|split; [|split]].
  - unfold server. rewrite Hh. reflexivity.
  - rewrite Q3. unfold s2. simpl. exact Q1.
  - rewrite Q4. exact HR2.
  - rewrite elapse_now. unfold s2. simpl. rewrite Hnow1. lia.
Qed.

Lemma healthy_while_gateway_down_witness :
  let s' := run [Elapse 200; Close (Some 1%Z); Elapse 2800] (boot ∅) in
  openclawHealthy s' = true
  /\ statusCode (server (Request (lit "GET") (lit "/health")) s') = 200%Z
  /\ spawns s' = [0]
  /\ restarts (timers s') = [5200]
  /\ now s' = 3000.
Proof.
  exact (healthy_while_gateway_down (initial ∅) 200 (Some 1%Z) (lit "GET")
           eq_refl eq_refl).
Defined.

Lemma handle_keeps_healthy (e : event) (s : state) :
  is_close e = false -> openclawHealthy s = true ->
  openclawHealthy (handle e s) = true.
Proof.
  intros He H. destruct e as [d | d | c | ms]; simpl in *.
  - rewrite on_stdout_data_healthy, H. apply orb_true_r.
  - exact H.
  - discriminate.
  - apply run_timers_keeps_healthy. exact H.
Qed.

(** X3. Nothing but the exit of the child clears the health flag: once it
    is set, it stays set through any output on either stream and any amount
    of time, restarts that fire included. *)
Theorem healthy_until_exit (evs : list event) (s : state) :
  forallb (fun e => negb (is_close e)) evs = true ->
  openclawHealthy s = true ->
  openclawHealthy (run evs s) = true.
Proof.
  revert s. induction evs as [|e evs IH]; intros s Hev H; [exact H|].
  simpl in Hev. apply andb_prop in Hev as [He Hevs].
  simpl. apply (IH _ Hevs). apply handle_keeps_healthy; [|exact H].
  destruct (is_close e); [discriminate | reflexivity].
Qed.

Lemma healthy_until_exit_witness :
  openclawHealthy
    (run [StderrData (lit "warn: slow start"); Elapse 100000;
          StdoutData (lit "tick")]
       (handle (StdoutData (lit "gateway started")) (boot ∅))) = true.
Proof.
  apply (healthy_until_exit
           [StderrData (lit "warn: slow start"); Elapse 100000;
            StdoutData (lit "tick")]
           (handle (StdoutData (lit "gateway started")) (boot ∅)));
    reflexivity.
Defined.

(** X4. Output that has no marker inside a single stdout chunk leaves the
    flag, the timers, the clock and the record of spawns as they were:
    stderr never counts, and a marker that arrives split over two chunks is
    not seen. *)
Theorem unmarked_output_ignored (outs : list (stream * jsstring)) (s : state) :
  forallb unmarked outs = true ->
  openclawHealthy (run (map output outs) s) = openclawHealthy s
  /\ timers (run (map output outs) s) = timers s
  /\ now (run (map output outs) s) = now s
  /\ spawns (run (map output outs) s) = spawns s.
Proof.
  revert s. induction outs as [|x outs IH]; intros s H; [repeat split|].
  simpl in H. apply andb_prop in H as [Hx Houts]. simpl.
  destruct (IH (handle (output x) s) Houts) as (-> & -> & -> & ->).
  destruct (output_frame x s) as (-> & -> & -> & _).
  rewrite output_healthy, Hx. repeat split.
Qed.

Lemma unmarked_output_ignored_witness :
  let outs := [(Stdout, lit "gateway listen"); (Stdout, lit "ing on :18789");
               (Stderr, lit "listening")] in
  has_marker (lit "gateway listen" ++ lit "ing on :18789") = true
  /\ openclawHealthy (run (map output outs) (boot ∅)) = false
  /\ timers (run (map output outs) (boot ∅)) = [Timer 3000 CbMarkHealthy]
  /\ now (run (map output outs) (boot ∅)) = 0
  /\ spawns (run (map output outs) (boot ∅)) = [0].
Proof.
  intros outs. split; [reflexivity|].
  exact (unmarked_output_ignored outs (boot ∅) eq_refl).
Defined.

End SupervisionFacts.

(** ** Shutting down *)

Section ShutdownFacts.

Import Sidecar Supervision.

Lemma process_handle_running (e : process_event) (p : process) :
  exited p = None ->
  process_handle e p =
  match e with
  | Signal sig => on_signal sig p
  | ServerClosed => if closing p then on_server_closed p else p
  | Gateway e' => Process (handle e' (sidecar p)) (kills p) (closing p) (exited p)
  end.
Proof. intros H. unfold process_handle. rewrite H. reflexivity. Qed.

Lemma process_run_exited (evs : list process_event) (p : process) :
  exited p <> None -> process_run evs p = p.
Proof.
  intros H. induction evs as [|e evs IH]; [reflexivity|].
  change (process_run (e :: evs) p)
    with (process_run evs (process_handle e p)).
  replace (process_handle e p) with p; [exact IH|].
  unfold process_handle. destruct (exited p); congruence.
Qed.

Lemma run_timers_keeps_process (fuel : nat) (t : N) (s : state) :
  is_Some (openclawProcess s) ->
  is_Some (openclawProcess (run_timers fuel t s)).
Proof.
  revert s. induction fuel as [|fuel IH]; intros s H; simpl; [exact H|].
  destruct (next_timer (timers s)) as [tm|]; [|exact H].
  destruct (due tm <=? t); [|exact H].
  apply IH. destruct (cb tm); [|exact H].
  eexists. reflexivity.
Qed.

Lemma process_handle_kills (e : process_event) (p : process) :
  is_signal e = false -> kills (process_handle e p) = kills p.
Proof.
  intros He. unfold process_handle. destruct (exited p); [reflexivity|].
  destruct e as [sig| |e']; [discriminate | | reflexivity].
  destruct (closing p); reflexivity.
Qed.

Lemma process_run_kills (evs : list process_event) (p : process) :
  forallb (fun e => negb (is_signal e)) evs = true ->
  kills (process_run evs p) = kills p.
Proof.
  revert p. induction evs as [|e evs IH]; intros p H; [reflexivity|].
  simpl in H. apply andb_prop in H as [He Hevs].
  change (process_run (e :: evs) p)
    with (process_run evs (process_handle e p)).
  rewrite (IH _ Hevs). apply process_handle_kills.
  destruct (is_signal e); [discriminate | reflexivity].
Qed.

(** X5. A signal sends SIGTERM to the child that is running and starts
    closing the server, and that is all: the exit of the child still sets
    the restart. If the server has finished closing within five seconds of
    the exit, the process exits with code 0 and nothing is spawned; if it
    has not, a new gateway is spawned at the five seconds. The new gateway
    gets no SIGTERM from anything but a further signal: whatever happens
    next, the process exiting included, nothing is sent to it as long as no
    other signal arrives, and a further signal is sent on to it. *)
Theorem shutdown_keeps_restart
    (p : process) (sig : signal) (code : option Z) (c : child) :
  exited p = None ->
  openclawProcess (sidecar p) = Some c ->
  restarts (timers (sidecar p)) = [] ->
  let p1 := process_run [Signal sig; Gateway (Close code)] p in
  let p2 := process_run [Gateway (Elapse 5000)] p1 in
  kills p1 = kills p ++ [length (spawns (sidecar p))]
  /\ restarts (timers (sidecar p1)) = [now (sidecar p) + 5000]
  /\ (forall d, d < 5000 ->
      let p' := process_run [Gateway (Elapse d); ServerClosed] p1 in
      exited p' = Some 0%Z /\ spawns (sidecar p') = spawns (sidecar p))
  /\ spawns (sidecar p2) = (now (sidecar p) + 5000) :: spawns (sidecar p)
  /\ kills p2 = kills p1
  /\ exited p2 = None
  /\ (forall evs,
      forallb (fun e => negb (is_signal e)) evs = true ->
      kills (process_run evs p2) = kills p1)
  /\ (forall evs,
      let p' := process_run (ServerClosed :: evs) p2 in
      exited p' = Some 0%Z /\ kills p' = kills p1
      /\ spawns (sidecar p') = spawns (sidecar p2))
  /\ (forall sig',
      kills (process_run [Signal sig'] p2) =
      kills p1 ++ [S (length (spawns (sidecar p)))]).
Proof.
  intros Hex Hc HR p1 p2.
  assert (E1 : p1 =
    Process (on_close code (sidecar (on_signal sig p)))
            (kills p ++ [length (spawns (sidecar p))]) true None).
  { unfold p1, process_run. simpl fold_left.
    rewrite (process_handle_running (Signal sig) p Hex).
    rewrite process_handle_running by (simpl; exact Hex).
    unfold on_signal at 2 3 4. simpl. rewrite Hc, Hex. reflexivity. }
  assert (HR1 : restarts (timers (on_close code (sidecar (on_signal sig p)))) =
                [now (sidecar p) + 5000]).
  { rewrite on_close_timers, restarts_app. simpl. rewrite HR. reflexivity. }
  assert (HRs : restarts (timers (sidecar (on_signal sig p))) = [])
    by exact HR.
  assert (E2 : p2 =
    Process (elapse 5000 (on_close code (sidecar (on_signal sig p))))
            (kills p1) true None).
  { unfold p2. rewrite E1. unfold process_run. simpl fold_left.
    rewrite process_handle_running by reflexivity. reflexivity. }
  assert (Hsp : spawns (sidecar p2) =
                (now (sidecar p) + 5000) :: spawns (sidecar p)).
  { rewrite E2. simpl.
    exact (proj1 (close_then_restart code (sidecar (on_signal sig p)) HRs)). }
  split; [rewrite E1; reflexivity|].
  split; [rewrite E1; exact HR1|].
  split; [|split; [exact Hsp|split; [|split; [|split; [|split]]]]].
  - intros d Hd p'. subst p'. rewrite E1. unfold process_run. simpl fold_left.
    rewrite process_handle_running by reflexivity.
    rewrite process_handle_running by reflexivity.
    simpl. split; [reflexivity|].
    exact (close_then_wait code d (sidecar (on_signal sig p)) HRs Hd).
  - rewrite E2. reflexivity.
  - rewrite E2. reflexivity.
  - intros evs Hevs. rewrite (process_run_kills evs p2 Hevs).
    rewrite E2. reflexivity.
  - intros evs p'. subst p'.
    assert (E3 : process_handle ServerClosed p2 = on_server_closed p2).
    { rewrite E2. rewrite process_handle_running by reflexivity. reflexivity. }
    change (process_run (ServerClosed :: evs) p2)
      with (process_run evs (process_handle ServerClosed p2)).
    rewrite E3, process_run_exited by discriminate.
    split; [reflexivity|]. split; [|reflexivity].
    rewrite E2. reflexivity.
  - intros sig'. unfold process_run. simpl fold_left.
    rewrite process_handle_running by (rewrite E2; reflexivity).
    unfold on_signal. cbn [kills].
    assert (Hproc : is_Some (openclawProcess (sidecar p2))).
    { rewrite E2. cbn [sidecar]. unfold elapse.
      apply run_timers_keeps_process. simpl. rewrite Hc. eauto. }
    destruct Hproc as [c' Hc'].
    change (openclawProcess
              (console_log
                 (lit "Received " ++ signal_name sig' ++ lit ", shutting down...")
                 (sidecar p2)))
      with (openclawProcess (sidecar p2)).
    rewrite Hc'.
    change (spawns
              (console_log
                 (lit "Received " ++ signal_name sig' ++ lit ", shutting down...")
                 (sidecar p2)))
      with (spawns (sidecar p2)).
    rewrite Hsp. f_equal. rewrite E2. reflexivity.
Qed.

Lemma shutdown_keeps_restart_witness :
  let p := process_run [Gateway (Elapse 60000)] (started ∅) in
  let p1 := process_run [Signal SIGINT; Gateway (Close None)] p in
  let p2 := process_run [Gateway (Elapse 5000)] p1 in
  kills p1 = [1%nat]
  /\ restarts (timers (sidecar p1)) = [65000]
  /\ spawns (sidecar p2) = [65000; 0]
  /\ kills p2 = [1%nat]
  /\ exited p2 = None
  /\ kills (process_run [Gateway (StdoutData (lit "started")); ServerClosed] p2) =
     [1%nat]
  /\ kills (process_run [Signal SIGTERM] p2) = [1%nat; 2%nat].
Proof.
  intros p p1 p2.
  destruct (shutdown_keeps_restart p SIGINT None
              (Child (lit "npx")
                 [lit "openclaw"; lit "gateway"; lit "--port"; lit "18789";
                  lit "--bind"; lit "lan"; lit "--allow-unconfigured"]
                 (child_env ∅))
              eq_refl eq_refl eq_refl)
    as (H1 & H2 & _ & H3 & H4 & H5 & H6 & _ & H7).
  split; [exact H1|]. split; [exact H2|]. split; [exact H3|].
  split; [exact H4|]. split; [exact H5|]. split.
  - exact (H6 [Gateway (StdoutData (lit "started")); ServerClosed] eq_refl).
  - exact (H7 SIGTERM).
Defined.

End ShutdownFacts.

(** ** Trimming *)

Section TrimFacts.

Import JS Screen.

Lemma trimStart_split (s : jsstring) :
  exists pre, s = pre ++ trimStart s /\ blank pre.
Proof.
  induction s as [|c s (pre & IH & Hpre)]; [exists []; split; constructor|].
  simpl. destruct (isWhiteSpace c) eqn:E.
  - exists (c :: pre). split; [simpl; congruence | constructor; assumption].
  - exists []. split; constructor.
Qed.

Lemma trimStart_head (s r : jsstring) (c : N) :
  trimStart s = c :: r -> isWhiteSpace c = false.
Proof.
  induction s as [|x s IH]; simpl; [discriminate|].
  destruct (isWhiteSpace x) eqn:E; [exact IH|]. intros [= <- _]. exact E.
Qed.

Lemma trimStart_fixed (r : jsstring) (c : N) :
  isWhiteSpace c = false -> trimStart (c :: r) = c :: r.
Proof. intros H. simpl. rewrite H. reflexivity. Qed.

Lemma trimEnd_split (s : jsstring) :
  exists post, s = trimEnd s ++ post /\ blank post.
Proof.
  destruct (trimStart_split (rev s)) as (pre & E & Hpre).
  exists (rev pre). split.
  - unfold trimEnd. rewrite <- rev_app_distr, <- E, rev_involutive. reflexivity.
  - apply Forall_rev. exact Hpre.
Qed.

Lemma trimEnd_last (s r : jsstring) (c : N) :
  trimEnd s = r ++ [c] -> isWhiteSpace c = false.
Proof.
  unfold trimEnd. intros H. apply (f_equal (@rev N)) in H.
  rewrite rev_involutive, rev_app_distr in H. simpl in H.
  exact (trimStart_head _ _ _ H).
Qed.

Lemma trimEnd_head (r : jsstring) (c : N) :
  isWhiteSpace c = false -> exists r', trimEnd (c :: r) = c :: r'.
Proof.
  intros Hc. destruct (trimEnd_split (c :: r)) as (post & E & Hpost).
  destruct (trimEnd (c :: r)) as [|c' r'].
  - simpl in E. subst post. inversion Hpost; congruence.
  - injection E as <- _. eauto.
Qed.

Lemma trimEnd_fixed (r : jsstring) (c : N) :
  isWhiteSpace c = false -> trimEnd (r ++ [c]) = r ++ [c].
Proof.
  intros H. unfold trimEnd. rewrite rev_app_distr. simpl.
  rewrite H. simpl. rewrite rev_involutive. reflexivity.
Qed.

(** What [trim] returns: the string without the whitespace at its two ends,
    and with none left there. *)
Lemma trim_spec (s : jsstring) :
  (exists pre post, s = pre ++ trim s ++ post /\ blank pre /\ blank post)
  /\ (forall c r, trim s = c :: r -> isWhiteSpace c = false)
  /\ (forall r c, trim s = r ++ [c] -> isWhiteSpace c = false).
Proof.
  split; [|split].
  - destruct (trimStart_split s) as (pre & E1 & Hpre).
    destruct (trimEnd_split (trimStart s)) as (post & E2 & Hpost).
    exists pre, post. unfold trim. rewrite <- E2. auto.
  - unfold trim. intros c r H.
    destruct (trimStart s) as [|x t] eqn:E; [discriminate|].
    pose proof (trimStart_head _ _ _ E) as Hx.
    destruct (trimEnd_head t x Hx) as [r' E']. rewrite E' in H.
    injection H as <- _. exact Hx.
  - unfold trim. intros r c. apply trimEnd_last.
Qed.

Lemma trim_idempotent (s : jsstring) : trim (trim s) = trim s.
Proof.
  destruct (trim_spec s) as (_ & Hhead & Hlast).
  destruct (trim s) as [|c r] eqn:E; [reflexivity|].
  unfold trim at 1. rewrite (trimStart_fixed r c (Hhead c r eq_refl)).
  destruct (@exists_last _ (c :: r)) as (r' & c' & E'); [discriminate|].
  rewrite E'. apply trimEnd_fixed. apply (Hlast r'). exact E'.
Qed.

End TrimFacts.

(** ** More on the settings screen *)

Section SettingsMore.

Import Store Settings React Screen.

Variable Number_toString : Q -> jsstring.
Variable host : tauri.

(** X7. A save that gets past the guards calls [tauri.setApiKey] with the
    trimmed key first. If that throws, nothing else is called and the
    configured flag is as it was; if it returns, the flag is set and
    [tauri.startGateway] is called next, and the flag stays set also when
    starting the gateway throws. *)
Theorem handleSave_calls (w : world) :
  truthy (trim (apiKey w)) = true ->
  is_installed (runtimeStatus (store w)) = true ->
  let w' := snd (handleSave host w) in
  match setApiKey_result host (trim (apiKey w)) with
  | Thrown _ =>
      calls w' = calls w ++ [CallSetApiKey (trim (apiKey w))]
      /\ apiKeyConfigured (store w') = apiKeyConfigured (store w)
  | Returned _ =>
      calls w' = calls w ++ [CallSetApiKey (trim (apiKey w)); CallStartGateway]
      /\ apiKeyConfigured (store w') = true
  end.
Proof.
  intros Hkey Hrt. rewrite (handleSave_ready host w Hkey Hrt). simpl.
  destruct (setApiKey_result host (trim (apiKey w))) as [[]|err].
  - destruct (startGateway_result host); simpl; rewrite <- app_assoc;
      split; reflexivity.
  - split; reflexivity.
Qed.

(** X8. The key handed to [tauri.setApiKey] is the key typed without the
    whitespace around it: the typed key is whitespace, then the key handed
    over, then whitespace, and the key handed over is not empty and neither
    starts nor ends with whitespace. *)
Theorem handleSave_passes_trimmed_key (w : world) :
  truthy (trim (apiKey w)) = true ->
  is_installed (runtimeStatus (store w)) = true ->
  exists pre k post rest,
    calls (snd (handleSave host w)) = calls w ++ CallSetApiKey k :: rest
    /\ apiKey w = pre ++ k ++ post /\ blank pre /\ blank post
    /\ k <> []
    /\ (forall c r, k = c :: r -> isWhiteSpace c = false)
    /\ (forall r c, k = r ++ [c] -> isWhiteSpace c = false).
Proof.
  intros Hkey Hrt.
  destruct (trim_spec (apiKey w)) as ((pre & post & E & Hpre & Hpost) & Hh & Hl).
  assert (Hcalls : exists rest,
             calls (snd (handleSave host w)) =
             calls w ++ CallSetApiKey (trim (apiKey w)) :: rest).
  { rewrite (handleSave_ready host w Hkey Hrt). simpl.
    destruct (setApiKey_result host (trim (apiKey w))) as [[]|err].
    - destruct (startGateway_result host); simpl; rewrite <- app_assoc; eauto.
    - simpl. eauto. }
  destruct Hcalls as [rest Hcalls].
  exists pre, (trim (apiKey w)), post, rest.
  split; [exact Hcalls|]. split; [exact E|]. split; [exact Hpre|].
  split; [exact Hpost|]. split; [|split; assumption].
  intros Hnil. rewrite Hnil in Hkey. discriminate.
Qed.

Lemma continue_button_disabled (w : world) :
  prop_at [0; 3; 1]%nat "disabled" (Settings.Settings Number_toString w) =
  Some (PBool (negb (truthy (trim (apiKey w))) || saving w
               || negb (is_installed (runtimeStatus (store w))))).
Proof. reflexivity. Qed.

(** X9. The button of the settings screen runs [handleSave], and it is
    enabled exactly when the key is not blank, no save is under way and the
    runtime is installed; a click on the enabled button therefore always
    gets to [tauri.setApiKey]. The input is disabled exactly while a save is
    under way or the runtime is not installed. *)
Theorem continue_button_matches_guards (w : world) :
  prop_at [0; 3; 1]%nat "onClick" (Settings.Settings Number_toString w) =
    Some (PHandler HandleSave)
  /\ (prop_at [0; 3; 1]%nat "disabled" (Settings.Settings Number_toString w) =
        Some (PBool false)
      <-> truthy (trim (apiKey w)) = true /\ saving w = false
          /\ is_installed (runtimeStatus (store w)) = true)
  /\ (prop_at [0; 3; 1]%nat "disabled" (Settings.Settings Number_toString w) =
        Some (PBool false) ->
      exists rest,
        calls (snd (handleSave host w)) =
        calls w ++ CallSetApiKey (trim (apiKey w)) :: rest)
  /\ prop_at [0; 3; 0; 0]%nat "disabled" (Settings.Settings Number_toString w) =
       Some (PBool (saving w || negb (is_installed (runtimeStatus (store w))))).
Proof.
  assert (Hiff :
    prop_at [0; 3; 1]%nat "disabled" (Settings.Settings Number_toString w) =
      Some (PBool false)
    <-> truthy (trim (apiKey w)) = true /\ saving w = false
        /\ is_installed (runtimeStatus (store w)) = true).
  { rewrite continue_button_disabled.
    destruct (truthy (trim (apiKey w))), (saving w),
      (is_installed (runtimeStatus (store w))); simpl;
      split; try (intros [= ]); try (intros (? & ? & ?)); try discriminate;
      auto. }
  split; [reflexivity|]. split; [exact Hiff|]. split; [|reflexivity].
  intros H. apply Hiff in H as (Hkey & _ & Hrt).
  rewrite (handleSave_ready host w Hkey Hrt). simpl.
  destruct (setApiKey_result host (trim (apiKey w))) as [[]|err].
  - destruct (startGateway_result host); simpl; rewrite <- app_assoc; eauto.
  - simpl. eauto.
Qed.

Lemma error_box_shows (message : jsstring) :
  message <> [] ->
  error_box (Some message) =
  el "div" "mb-8 p-5 rounded-xl bg-white/[0.02] border border-white/10"
    [el "p" "text-[15px] text-white/70 mb-1" [Text (lit "Something went wrong")];
     el "p" "text-[13px] text-white/40" [Text message]].
Proof. intros H. destruct message; [congruence | reflexivity]. Qed.

(** X10. After a save in which either bridge call threw a message that is
    not empty, the settings screen shows that message, unchanged, in its
    error box under the line "Something went wrong", and the button is
    enabled again, so the save can be tried once more. *)
Theorem failed_save_is_shown (w : world) (err : thrown) :
  truthy (trim (apiKey w)) = true ->
  is_installed (runtimeStatus (store w)) = true ->
  setApiKey_result host (trim (apiKey w)) = Thrown err
  \/ (setApiKey_result host (trim (apiKey w)) = Returned tt
      /\ startGateway_result host = Thrown err) ->
  message_of err <> [] ->
  let w' := snd (handleSave host w) in
  at_path [0; 2]%nat (Settings.Settings Number_toString w') =
    Some (el "div" "mb-8 p-5 rounded-xl bg-white/[0.02] border border-white/10"
            [el "p" "text-[15px] text-white/70 mb-1"
               [Text (lit "Something went wrong")];
             el "p" "text-[13px] text-white/40" [Text (message_of err)]])
  /\ prop_at [0; 3; 1]%nat "disabled" (Settings.Settings Number_toString w') =
       Some (PBool false).
Proof.
  intros Hkey Hrt Hthrow Hmsg w'.
  assert (Hw' : error (store w') = Some (message_of err)
                /\ apiKey w' = apiKey w /\ saving w' = false
                /\ runtimeStatus (store w') = runtimeStatus (store w)).
  { unfold w'. rewrite (handleSave_ready host w Hkey Hrt). simpl.
    destruct Hthrow as [-> | [-> ->]]; repeat split. }
  destruct Hw' as (He & Hk & Hs & Hr). split.
  - change (at_path [0; 2]%nat (Settings.Settings Number_toString w'))
      with (Some (error_box (error (store w')))).
    rewrite He, (error_box_shows _ Hmsg). reflexivity.
  - rewrite continue_button_disabled, Hk, Hs, Hr, Hkey, Hrt. reflexivity.
Qed.

End SettingsMore.

Section SettingsMoreExamples.

Import Store Settings React Screen.

Lemma handleSave_calls_witness :
  let w' := snd (handleSave host_gateway_fails (ready_world " sk-ant-1 ")) in
  calls w' = [CallSetApiKey (lit "sk-ant-1"); CallStartGateway]
  /\ apiKeyConfigured (store w') = true.
Proof.
  exact (handleSave_calls host_gateway_fails (ready_world " sk-ant-1 ")
           eq_refl eq_refl).
Defined.

Lemma handleSave_passes_trimmed_key_witness :
  exists pre k post rest,
    calls (snd (handleSave host_ok (ready_world "  sk-ant-1 "))) =
      [] ++ CallSetApiKey k :: rest
    /\ lit "  sk-ant-1 " = pre ++ k ++ post /\ blank pre /\ blank post
    /\ k <> []
    /\ (forall c r, k = c :: r -> isWhiteSpace c = false)
    /\ (forall r c, k = r ++ [c] -> isWhiteSpace c = false).
Proof.
  exact (handleSave_passes_trimmed_key host_ok (ready_world "  sk-ant-1 ")
           eq_refl eq_refl).
Defined.

Lemma continue_button_matches_guards_witness :
  exists rest,
    calls (snd (handleSave host_ok (ready_world "sk-ant-1"))) =
    [] ++ CallSetApiKey (lit "sk-ant-1") :: rest.
Proof.
  destruct (continue_button_matches_guards (fun _ => []) host_ok
              (ready_world "sk-ant-1")) as (_ & _ & H & _).
  exact (H eq_refl).
Defined.

Lemma failed_save_is_shown_witness :
  let w' := snd (handleSave host_key_fails (ready_world "sk-ant-1")) in
  at_path [0; 2]%nat (Settings.Settings (fun _ => []) w') =
    Some (el "div" "mb-8 p-5 rounded-xl bg-white/[0.02] border border-white/10"
            [el "p" "text-[15px] text-white/70 mb-1"
               [Text (lit "Something went wrong")];
             el "p" "text-[13px] text-white/40"
               [Text (lit "keychain is locked")]])
  /\ prop_at [0; 3; 1]%nat "disabled" (Settings.Settings (fun _ => []) w') =
       Some (PBool false).
Proof.
  apply (failed_save_is_shown (fun _ => []) host_key_fails
           (ready_world "sk-ant-1") (ThrownError (lit "keychain is locked"))
           eq_refl eq_refl).
  - left. reflexivity.
  - discriminate.
Defined.

End SettingsMoreExamples.

(** ** The handlers between their awaits *)

Section AwaitFacts.

Import Store Settings React Screen Await.

Variable Number_toString : Q -> jsstring.
Variable conversion_error : thrown.

(** Run without interruption, and for calls that end in a value the catch
    block can read, the segments are the handlers of [Settings]. *)
Lemma handleInstallRuntime_straight_eq (host : tauri) (w : world) :
  handleInstallRuntime_straight conversion_error host w =
  handleInstallRuntime host w.
Proof.
  unfold handleInstallRuntime_straight, handleInstallRuntime,
    handleInstallRuntime_start, handleInstallRuntime_resume, issue,
    tauri_installRuntime, try_catch, bind, call, update_store. simpl.
  destruct (installRuntime_result host) as [[]|err]; reflexivity.
Qed.

Lemma handleSave_straight_eq (host : tauri) (w : world) :
  handleSave_straight conversion_error host w = handleSave host w.
Proof.
  destruct (truthy (trim (apiKey w))) eqn:Hkey.
  - destruct (is_installed (runtimeStatus (store w))) eqn:Hrt.
    + rewrite (handleSave_ready host w Hkey Hrt).
      unfold handleSave_straight, handleSave_start, bind. rewrite Hkey, Hrt.
      simpl negb. cbv iota.
      unfold handleSave_after_setApiKey, handleSave_after_startGateway,
        handleSave_catch, message_or_throw, try_finally, issue, call,
        update_store, setSaving, ret, bind. simpl.
      destruct (setApiKey_result host (trim (apiKey w))) as [[]|err]; simpl;
        [destruct (startGateway_result host) as [info|err]; simpl|];
        rewrite <- ?app_assoc; reflexivity.
    + rewrite (handleSave_not_installed host w Hkey Hrt).
      unfold handleSave_straight, handleSave_start, bind. rewrite Hkey, Hrt.
      reflexivity.
  - rewrite (handleSave_empty_key host w Hkey).
    unfold handleSave_straight, handleSave_start, bind. rewrite Hkey.
    reflexivity.
Qed.

Lemma handleSave_start_saving (w : world) :
  handleSave_start w =
  (Returned (if truthy (trim (apiKey w))
                && is_installed (runtimeStatus (store w))
             then Waiting else Finished),
   snd (handleSave_start w))
  /\ saving (snd (handleSave_start w)) =
     (if truthy (trim (apiKey w)) && is_installed (runtimeStatus (store w))
      then true else saving w)
  /\ (apiKey (snd (handleSave_start w)), runtimeDetails (snd (handleSave_start w)),
      runtimeStatus (store (snd (handleSave_start w)))) =
     (apiKey w, runtimeDetails w, runtimeStatus (store w)).
Proof.
  unfold handleSave_start.
  destruct (truthy (trim (apiKey w)));
    [destruct (is_installed (runtimeStatus (store w)))|]; repeat split.
Qed.

(** X6. However a save that passed the guards ends, the saving flag is off
    afterwards, in whatever state the application was when the handler was
    resumed: after a rejected [tauri.setApiKey], after a fulfilled or
    rejected [tauri.startGateway], and also when the catch block itself
    throws because [String(err)] does. Only in that last case the handler
    rejects, and then it has changed nothing in the store, so a gateway
    status of [starting] stays. Until a call is awaited the flag is on if
    the guards passed and as it was if one returned. No segment changes the
    key typed, the runtime details or the runtime status. Run without
    interruption on calls that end legibly, the segments are [handleSave]. *)
Theorem save_ends_not_saving
    (host : tauri) (w0 w1 w2 : world)
    (r1 : settled unit) (rej : rejection) (r2 : settled GatewayInfo) :
  let start := handleSave_start w0 in
  let end1 := handleSave_after_setApiKey conversion_error (Rejected rej) w1 in
  let mid := handleSave_after_setApiKey conversion_error r1 w1 in
  let end2 := handleSave_after_startGateway conversion_error r2 w2 in
  saving (snd start) =
    (if truthy (trim (apiKey w0)) && is_installed (runtimeStatus (store w0))
     then true else saving w0)
  /\ saving (snd end1) = false
  /\ saving (snd end2) = false
  /\ fst end1 =
     match rej with
     | Legible _ => Returned Finished
     | Illegible => Thrown conversion_error
     end
  /\ fst end2 =
     match r2 with
     | Rejected Illegible => Thrown conversion_error
     | _ => Returned tt
     end
  /\ store (snd (handleSave_after_setApiKey conversion_error
                   (Rejected Illegible) w1)) = store w1
  /\ store (snd (handleSave_after_startGateway conversion_error
                   (Rejected Illegible) w2)) = store w2
  /\ (apiKey (snd start), runtimeDetails (snd start),
      runtimeStatus (store (snd start))) =
     (apiKey w0, runtimeDetails w0, runtimeStatus (store w0))
  /\ (apiKey (snd mid), runtimeDetails (snd mid),
      runtimeStatus (store (snd mid))) =
     (apiKey w1, runtimeDetails w1, runtimeStatus (store w1))
  /\ (apiKey (snd end2), runtimeDetails (snd end2),
      runtimeStatus (store (snd end2))) =
     (apiKey w2, runtimeDetails w2, runtimeStatus (store w2))
  /\ handleSave_straight conversion_error host w0 = handleSave host w0.
Proof.
  intros start end1 mid end2.
  destruct (handleSave_start_saving w0) as (_ & Hs & Hf).
  split; [exact Hs|].
  split; [destruct rej; reflexivity|].
  split; [destruct r2 as [info|[err|]]; reflexivity|].
  split; [destruct rej; reflexivity|].
  split; [destruct r2 as [info|[err|]]; reflexivity|].
  split; [reflexivity|]. split; [reflexivity|].
  split; [exact Hf|].
  split; [destruct r1 as [[]|[err|]]; reflexivity|].
  split; [destruct r2 as [info|[err|]]; reflexivity|].
  apply handleSave_straight_eq.
Qed.

(** X11. [handleInstallRuntime] sets the runtime status to [downloading] at
    0 and calls [tauri.installRuntime] once, and waits. Resumed in whatever
    state the application is in by then: if the call was fulfilled it
    changes nothing, so a status reported in the meantime stays; if it was
    rejected with a value the catch block can read, it sets the runtime
    status to the error with that message and changes nothing else, and the
    settings screen then shows the message with a button under it that runs
    [handleInstallRuntime] again; if [String(err)] throws, the handler
    rejects and changes nothing. Run without interruption on a call that
    ends legibly, the two segments are the handler of [Settings]. *)
Theorem handleInstallRuntime_by_segments
    (host : tauri) (w0 w1 : world) (err : thrown) :
  handleInstallRuntime_start w0 =
    (Returned tt,
     World (setRuntimeStatus (RuntimeDownloading 0) (store w0))
           (apiKey w0) (saving w0) (runtimeDetails w0)
           (calls w0 ++ [CallInstallRuntime]))
  /\ handleInstallRuntime_resume conversion_error (Fulfilled tt) w1 =
     (Returned tt, w1)
  /\ handleInstallRuntime_resume conversion_error (Rejected (Legible err)) w1 =
     (Returned tt,
      World (setRuntimeStatus (RuntimeError (message_of err)) (store w1))
            (apiKey w1) (saving w1) (runtimeDetails w1) (calls w1))
  /\ handleInstallRuntime_resume conversion_error (Rejected Illegible) w1 =
     (Thrown conversion_error, w1)
  /\ (let w' := snd (handleInstallRuntime_resume conversion_error
                       (Rejected (Legible err)) w1) in
      at_path [0; 1; 0; 1; 1]%nat (Settings.Settings Number_toString w') =
        Some (el "p" "text-[13px] text-white/40 mb-3" [Text (message_of err)])
      /\ prop_at [0; 1; 0; 1; 2]%nat "onClick"
           (Settings.Settings Number_toString w') =
         Some (PHandler HandleInstallRuntime))
  /\ handleInstallRuntime_straight conversion_error host w0 =
     handleInstallRuntime host w0.
Proof.
  split; [reflexivity|]. split; [reflexivity|]. split; [reflexivity|].
  split; [reflexivity|]. split; [split; reflexivity|].
  apply handleInstallRuntime_straight_eq.
Qed.

End AwaitFacts.

(** ** The percentage on the screens *)

Section Percent.

Import Store Settings React.

Variable Number_toString : Q -> jsstring.

Lemma Math_round_near (x : Q) :
  (inject_Z (Math_round x) <= x + (1 # 2))%Q
  /\ (x - (1 # 2) < inject_Z (Math_round x))%Q.
Proof.
  unfold Math_round. split; [apply Qfloor_le|].
  pose proof (Qlt_floor (x + (1 # 2))) as H.
  rewrite inject_Z_plus in H. change (inject_Z 1) with 1%Q in H. lra.
Qed.

Lemma Math_round_mono (x y : Q) :
  (x <= y)%Q -> (Math_round x <= Math_round y)%Z.
Proof.
  intros H. unfold Math_round. apply Qfloor_resp_le.
  apply Qplus_le_l. exact H.
Qed.

Lemma Math_round_integer (n : Z) : Math_round (inject_Z n) = n.
Proof.
  unfold Math_round, Qfloor, inject_Z, Qplus. simpl.
  rewrite Z.mul_1_r.
  replace (n * 2 + 1)%Z with (1 + n * 2)%Z by lia.
  rewrite Z.div_add by lia. reflexivity.
Qed.

(** X12. The percentage the two screens print while downloading is the
    integer nearest to the progress, halves going up: it is within a half
    of the progress, it does not decrease when the progress grows, it is the
    progress itself when that is an integer, and it lies between 0 and 100
    when the progress does. The progress bar takes the progress as it is. *)
Theorem shown_percent (st : AppState) (w : world) (p : Q) :
  runtimeStatus st = RuntimeDownloading p ->
  runtimeStatus (store w) = RuntimeDownloading p ->
  at_path [0; 2; 0]%nat (Loading.Loading Number_toString st) =
    Some (Text (lit "Downloading Node.js runtime... "
                ++ Number_toString (inject_Z (Math_round p)) ++ lit "%"))
  /\ at_path [0; 1; 0; 0; 1; 1]%nat (Settings.Settings Number_toString w) =
       Some (el "p" "text-[13px] text-white/40"
               [Text (lit "Downloading runtime (");
                Text (Number_toString (inject_Z (Math_round p)));
                Text (lit "%)")])
  /\ Screen.prop_at [0; 3; 0]%nat "style" (Loading.Loading Number_toString st) =
       Some (PStyle [("width"%string, Number_toString p ++ lit "%")])
  /\ (inject_Z (Math_round p) <= p + (1 # 2))%Q
  /\ (p - (1 # 2) < inject_Z (Math_round p))%Q
  /\ (forall q, (p <= q)%Q -> (Math_round p <= Math_round q)%Z)
  /\ (forall n, p = inject_Z n -> Math_round p = n)
  /\ ((0 <= p)%Q -> (p <= 100)%Q -> (0 <= Math_round p <= 100)%Z).
Proof.
  intros Hst Hw.
  split; [unfold Loading.Loading; rewrite Hst; reflexivity|].
  split; [unfold Settings.Settings; rewrite Hw; reflexivity|].
  split; [unfold Loading.Loading; rewrite Hst; reflexivity|].
  split; [apply Math_round_near|]. split; [apply Math_round_near|].
  split; [intros q; apply Math_round_mono|].
  split; [intros n ->; apply Math_round_integer|].
  intros H0 H100. split.
  - change 0%Z with (Math_round 0). apply Math_round_mono. exact H0.
  - change 100%Z with (Math_round 100). apply Math_round_mono. exact H100.
Qed.

End Percent.

Lemma shown_percent_witness :
  let st := Store.setRuntimeStatus (Store.RuntimeDownloading (199 # 2))
              Store.useAppStore in
  React.at_path [0; 2; 0]%nat (Loading.Loading (fun _ => lit "100") st) =
    Some (React.Text (lit "Downloading Node.js runtime... 100%"))
  /\ (0 <= React.Math_round (199 # 2) <= 100)%Z.
Proof.
  intros st.
  destruct (shown_percent (fun _ => lit "100") st
              (Settings.World st [] false None []) (199 # 2) eq_refl eq_refl)
    as (H1 & _ & _ & _ & _ & _ & _ & H2).
  split; [exact H1|]. apply H2; discriminate.
Defined.

(** ** Setters in a row *)

Section StoreMore.

Import Store Screen.

(** X13. Two [set]s in a row are one [set] with the fields of both, those
    of the later one winning; so setting the same fields twice is setting
    them once, and two [set]s with no field in common can be swapped, as
    any two different setters of the store can. *)
Theorem set_composes (p q : Partial) (s : AppState) :
  set p (set q s) = set (override p q) s
  /\ set p (set p s) = set p s
  /\ (apart p q = true -> set p (set q s) = set q (set p s)).
Proof.
  destruct p as [p1 p2 p3 p4 p5], q as [q1 q2 q3 q4 q5], s as [s1 s2 s3 s4 s5].
  unfold set, override, apart. simpl. split; [|split].
  - destruct p1, p2, p3, p4, p5; reflexivity.
  - destruct p1, p2, p3, p4, p5; reflexivity.
  - destruct p1, q1; simpl; try discriminate;
      destruct p2, q2; simpl; try discriminate;
      destruct p3, q3; simpl; try discriminate;
      destruct p4, q4; simpl; try discriminate;
      destruct p5, q5; simpl; try discriminate; reflexivity.
Qed.

Lemma set_composes_witness :
  setGatewayStatus (GatewayError (lit "boom"))
    (setError (Some (lit "boom")) useAppStore) =
  setError (Some (lit "boom"))
    (setGatewayStatus (GatewayError (lit "boom")) useAppStore).
Proof.
  destruct (set_composes
    {| p_screen := None; p_gatewayStatus := Some (GatewayError (lit "boom"));
       p_runtimeStatus := None; p_apiKeyConfigured := None; p_error := None |}
    {| p_screen := None; p_gatewayStatus := None; p_runtimeStatus := None;
       p_apiKeyConfigured := None; p_error := Some (Some (lit "boom")) |}
    useAppStore) as (_ & _ & H).
  exact (H eq_refl).
Defined.

End StoreMore.

(** ** The builder script *)

Section BuilderFacts.

Import Builder.

Lemma parse_digits_stop (n : N) (rest : jsstring) :
  rest = [] \/ (exists c r, rest = c :: r /\ isDigit c = false) ->
  parse_digits (Some n) rest = Some n.
Proof.
  intros [-> | (c & r & -> & Hc)]; simpl; [|rewrite Hc]; reflexivity.
Qed.

Lemma parse_digits_step (acc : option N) (c : N) (s : jsstring) :
  isDigit c = true ->
  parse_digits acc (c :: s) =
  parse_digits (Some (10 * default 0 acc + (c - 48))) s.
Proof. intros H. simpl. rewrite H. reflexivity. Qed.

Lemma parse_digits_acc (d : Decimal.uint) (acc : positive) (rest : jsstring) :
  parse_digits (Some (Npos acc)) (digits d ++ rest) =
  parse_digits (Some (Npos (Pos.of_uint_acc d acc))) rest.
Proof.
  revert acc. induction d; intros acc; [reflexivity|..];
    cbn [digits app Pos.of_uint_acc];
    rewrite parse_digits_step by reflexivity;
    rewrite <- IHd; f_equal; f_equal; cbn [default from_option id]; lia.
Qed.

Lemma parse_digits_zero (d : Decimal.uint) (rest : jsstring) :
  parse_digits (Some 0) (digits d ++ rest) =
  parse_digits (Some (Pos.of_uint d)) rest.
Proof.
  induction d; [reflexivity|..];
    cbn [digits app Pos.of_uint];
    rewrite parse_digits_step by reflexivity;
    first [exact IHd | apply (parse_digits_acc d _ rest)].
Qed.

Lemma parse_digits_uint (d : Decimal.uint) (rest : jsstring) :
  d <> Decimal.Nil ->
  parse_digits None (digits d ++ rest) =
  parse_digits (Some (Pos.of_uint d)) rest.
Proof.
  intros Hd. destruct d; [congruence|..];
    cbn [digits app Pos.of_uint];
    rewrite parse_digits_step by reflexivity;
    first [apply (parse_digits_zero d rest) | apply (parse_digits_acc d _ rest)].
Qed.

Lemma unsigned_digits (d : Decimal.uint) :
  d <> Decimal.Nil -> unsigned (digits d) = (false, digits d).
Proof. intros Hd. destruct d; [congruence|..]; reflexivity. Qed.

Lemma before_dot_digits (d : Decimal.uint) (rest : jsstring) :
  before_dot (digits d ++ 46 :: rest) = digits d
  /\ before_dot (digits d) = digits d.
Proof.
  induction d as [|d [IH1 IH2] |d [IH1 IH2] |d [IH1 IH2] |d [IH1 IH2]
                  |d [IH1 IH2] |d [IH1 IH2] |d [IH1 IH2] |d [IH1 IH2]
                  |d [IH1 IH2] |d [IH1 IH2]];
    simpl; rewrite ?IH1, ?IH2; split; reflexivity.
Qed.

Lemma parseInt_decimal (n : N) :
  parseInt (String_of_int (Z.of_N n)) = Number_of false n.
Proof.
  destruct n as [|p]; [reflexivity|]. simpl String_of_int.
  unfold parseInt. rewrite unsigned_digits by apply Unsigned.to_uint_nonnil.
  cbn [fst snd].
  rewrite <- (app_nil_r (digits (Pos.to_uint p))).
  rewrite parse_digits_uint by apply Unsigned.to_uint_nonnil.
  rewrite Unsigned.of_to. reflexivity.
Qed.

Lemma parse_digits_some (n : N) (s : jsstring) :
  exists m, parse_digits (Some n) s = Some m.
Proof.
  revert n. induction s as [|c s IH]; intros n; simpl; [eauto|].
  destruct (isDigit c); [apply IH | eauto].
Qed.

(** No number comes out exactly when no digit is at the front. *)
Lemma parse_digits_none (s : jsstring) :
  parse_digits None s = None <->
  (forall c r, s = c :: r -> isDigit c = false).
Proof.
  destruct s as [|c s]; simpl.
  - split; [intros _ c r [= ] | reflexivity].
  - destruct (isDigit c) eqn:E.
    + match goal with |- context [parse_digits (Some ?a) s] =>
        destruct (parse_digits_some a s) as [m ->] end.
      split; [discriminate|]. intros H. specialize (H c s eq_refl). congruence.
    + split; [|reflexivity]. intros _ c' r [= <- _]. exact E.
Qed.

Lemma parseInt_NaN (s : jsstring) :
  parseInt s = NaN <->
  (forall c r, snd (unsigned s) = c :: r -> isDigit c = false).
Proof.
  rewrite <- parse_digits_none. unfold parseInt.
  destruct (parse_digits None (snd (unsigned s))) as [n|]; [|tauto].
  split; [|discriminate]. unfold Number_of. destruct (n <? 2 ^ 53); discriminate.
Qed.

(** X16. A version whose first component is the decimal writing of a
    number below 2^53 gives that number as its major version, whatever
    follows the first dot, and SEA support exactly when the number is at
    least 25; from 2^53 on the major version is the double nearest to the
    number, and SEA is supported. The major version is NaN exactly when
    the first component, after leading whitespace and one sign, does not
    start with a digit, and then SEA is not supported; SEA is supported
    exactly when the major version is a number that is at least 25. *)
Theorem checkNodeVersion_major (n : N) (rest : jsstring) :
  (n < 2 ^ 53 ->
   major (checkNodeVersion (String_of_int (Z.of_N n) ++ lit "." ++ rest)) =
     Exact (Z.of_N n)
   /\ major (checkNodeVersion (String_of_int (Z.of_N n))) = Exact (Z.of_N n)
   /\ supportsSEA
        (checkNodeVersion (String_of_int (Z.of_N n) ++ lit "." ++ rest)) =
      (25 <=? n))
  /\ (2 ^ 53 <= n ->
      major (checkNodeVersion (String_of_int (Z.of_N n) ++ lit "." ++ rest)) =
        Rounded false n
      /\ supportsSEA
           (checkNodeVersion (String_of_int (Z.of_N n) ++ lit "." ++ rest)) =
         true)
  /\ (forall v,
      major (checkNodeVersion v) = NaN <->
      (forall c r, snd (unsigned (before_dot v)) = c :: r -> isDigit c = false))
  /\ (forall v, major (checkNodeVersion v) = NaN ->
      supportsSEA (checkNodeVersion v) = false)
  /\ (forall v, supportsSEA (checkNodeVersion v) = true <->
      (exists m, major (checkNodeVersion v) = Exact m /\ (25 <= m)%Z)
      \/ (exists k, major (checkNodeVersion v) = Rounded false k)).
Proof.
  assert (Hb : before_dot (String_of_int (Z.of_N n) ++ lit "." ++ rest) =
               String_of_int (Z.of_N n)
               /\ before_dot (String_of_int (Z.of_N n)) =
                  String_of_int (Z.of_N n)).
  { destruct n as [|p]; [split; reflexivity|].
    apply (before_dot_digits (Pos.to_uint p) rest). }
  destruct Hb as [Hb1 Hb2].
  unfold checkNodeVersion. cbn [major supportsSEA].
  rewrite Hb1, Hb2, parseInt_decimal.
  split; [|split; [|split; [|split]]].
  - intros Hn. unfold Number_of.
    apply N.ltb_lt in Hn. rewrite Hn. cbn [at_least_25].
    split; [reflexivity|]. split; [reflexivity|].
    destruct (25 <=? n) eqn:E.
    + apply Z.leb_le. apply N.leb_le in E. lia.
    + apply Z.leb_gt. apply N.leb_gt in E. lia.
  - intros Hn. unfold Number_of.
    apply N.ltb_ge in Hn. rewrite Hn. split; reflexivity.
  - intros v. apply parseInt_NaN.
  - intros v ->. reflexivity.
  - intros v. destruct (parseInt (before_dot v)) as [|m|[] k];
      cbn [at_least_25 negb]; split.
    + discriminate.
    + intros [(m & [= ] & _) | (k & [= ])].
    + intros H. left. exists m. split; [reflexivity|]. apply Z.leb_le. exact H.
    + intros [(m' & [= <-] & H) | (k & [= ])]. apply Z.leb_le. exact H.
    + discriminate.
    + intros [(m & [= ] & _) | (k' & [= ])].
    + intros _. right. eauto.
    + reflexivity.
Qed.

Lemma checkNodeVersion_major_witness :
  major (checkNodeVersion (lit "25.5.0")) = Exact 25
  /\ supportsSEA (checkNodeVersion (lit "25.5.0")) = true
  /\ supportsSEA (checkNodeVersion (lit "v25.5.0")) = false
  /\ major (checkNodeVersion (lit "9007199254740993.0.0")) =
     Rounded false 9007199254740993.
Proof.
  destruct (checkNodeVersion_major 25 (lit "5.0")) as (H1 & _ & _ & H4 & _).
  destruct (H1 eq_refl) as (Ha & _ & Hb).
  destruct (checkNodeVersion_major 9007199254740993 (lit "0.0"))
    as (_ & H2 & _).
  split; [exact Ha|]. split; [exact Hb|]. split; [apply H4; reflexivity|].
  apply H2. discriminate.
Defined.

Example node_versions :
  supportsSEA (checkNodeVersion (lit "25.5.0")) = true
  /\ supportsSEA (checkNodeVersion (lit "24.11.1")) = false
  /\ major (checkNodeVersion (lit "22.12.0-nightly")) = Exact 22
  /\ major (checkNodeVersion (lit "v25.5.0")) = NaN
  /\ major (checkNodeVersion []) = NaN
  /\ major (checkNodeVersion (lit "+25.0.0")) = Exact 25
  /\ major (checkNodeVersion (lit " 25.1")) = Exact 25
  /\ major (checkNodeVersion (lit "-3.0")) = Exact (-3)
  /\ supportsSEA (checkNodeVersion (lit "+25.0.0")) = true.
Proof. repeat split. Qed.

(** X17. [getCurrentTarget] agrees with the table of targets: for the
    platform and architecture of every entry it gives that entry's triple,
    and every triple it gives is the one of an entry for the same platform.
    It gives a triple exactly on darwin, linux and win32, and on linux and
    win32 it gives the x64 triple whatever the architecture is. *)
Theorem getCurrentTarget_in_table (platform architecture : jsstring) :
  (forall t, In t TARGETS -> getCurrentTarget (os t) (arch t) = Some (tauri t))
  /\ (forall r, getCurrentTarget platform architecture = Some r ->
      exists t, In t TARGETS /\ tauri t = r /\ os t = platform)
  /\ (getCurrentTarget platform architecture = None <->
      platform <> lit "darwin" /\ platform <> lit "linux"
      /\ platform <> lit "win32")
  /\ getCurrentTarget (lit "linux") architecture =
       Some (lit "x86_64-unknown-linux-gnu")
  /\ getCurrentTarget (lit "win32") architecture =
       Some (lit "x86_64-pc-windows-msvc").
Proof.
  split; [|split; [|split; [|split; reflexivity]]].
  - intros t [<- | [<- | [<- | [<- | []]]]]; reflexivity.
  - intros r. unfold getCurrentTarget.
    destruct (bool_decide (platform = lit "darwin")) eqn:E1.
    + apply bool_decide_eq_true in E1. subst platform.
      destruct (bool_decide (architecture = lit "arm64")); intros [= <-].
      * exists (Target (lit "aarch64-apple-darwin") (lit "darwin")
                  (lit "arm64") []).
        split; [left; reflexivity | split; reflexivity].
      * exists (Target (lit "x86_64-apple-darwin") (lit "darwin")
                  (lit "x64") []).
        split; [right; left; reflexivity | split; reflexivity].
    + destruct (bool_decide (platform = lit "linux")) eqn:E2.
      * apply bool_decide_eq_true in E2. subst platform. intros [= <-].
        exists (Target (lit "x86_64-unknown-linux-gnu") (lit "linux")
                  (lit "x64") []).
        split; [right; right; left; reflexivity | split; reflexivity].
      * destruct (bool_decide (platform = lit "win32")) eqn:E3; [|discriminate].
        apply bool_decide_eq_true in E3. subst platform. intros [= <-].
        exists (Target (lit "x86_64-pc-windows-msvc") (lit "win32")
                  (lit "x64") (lit ".exe")).
        split; [right; right; right; left; reflexivity | split; reflexivity].
  - unfold getCurrentTarget.
    destruct (bool_decide (platform = lit "darwin")) eqn:E1;
      [apply bool_decide_eq_true in E1; split; [discriminate | tauto]|].
    destruct (bool_decide (platform = lit "linux")) eqn:E2;
      [apply bool_decide_eq_true in E2; split; [discriminate | tauto]|].
    destruct (bool_decide (platform = lit "win32")) eqn:E3;
      [apply bool_decide_eq_true in E3; split; [discriminate | tauto]|].
    apply bool_decide_eq_false in E1, E2, E3. tauto.
Qed.

Lemma getCurrentTarget_in_table_witness :
  getCurrentTarget (lit "darwin") (lit "arm64") = Some (lit "aarch64-apple-darwin")
  /\ exists t, In t TARGETS /\ tauri t = lit "x86_64-unknown-linux-gnu"
               /\ os t = lit "linux".
Proof.
  destruct (getCurrentTarget_in_table (lit "linux") (lit "arm64"))
    as (H1 & H2 & _).
  split.
  - apply (H1 (Target (lit "aarch64-apple-darwin") (lit "darwin")
                 (lit "arm64") [])).
    left. reflexivity.
  - exact (H2 (lit "x86_64-unknown-linux-gnu") eq_refl).
Defined.

End BuilderFacts.
